(** * The notebook-grid layout engine of the picture diary

    A shallow embedding of the two walks over the diary text:

    - [App.calculateRequiredRows] (src/App.tsx), which only counts the
      cells the text needs and derives the number of rows from the count;
    - the body of the [GridNotebook] component, which materialises the cells
      into [displayCells] and pads them.

    A JavaScript string is a sequence of UTF-16 code units; indexing
    ([s[i]]), [length] and the regular expressions of the source (which carry
    no [u] flag) all work on code units.  Every character the code singles
    out lies in the Basic Multilingual Plane and is one code unit. *)

From Stdlib Require Import String Ascii.
From Stdlib Require Import List NArith ZArith Arith Bool Lia ZifyNat.
Import ListNotations.

(** ** Strings *)

Definition jsstring := list N.

(** An ASCII literal as a JavaScript string. *)
Fixpoint str (s : string) : jsstring :=
  match s with
  | EmptyString => []
  | String a r => N_of_ascii a :: str r
  end.

Definition SPACE : N := 32%N.          (* ' '  *)
Definition NEWLINE : N := 10%N.        (* '\n' *)
Definition LDQUO : N := 8220%N.        (* U+201C, opening double quote *)
Definition LSQUO : N := 8216%N.        (* U+2018, opening single quote *)
Definition RDQUO : N := 8221%N.        (* U+201D, closing double quote *)
Definition RSQUO : N := 8217%N.        (* U+2019, closing single quote *)
Definition RPAREN : N := 41%N.         (* ')' *)

(** [xs.includes(c)] where [c] may be [undefined] (an index past the end). *)
Definition includes (xs : list N) (c : option N) : bool :=
  match c with
  | Some c => existsb (N.eqb c) xs
  | None => false
  end.

Definition member (xs : list N) (c : N) : bool := includes xs (Some c).

(** [s[i]]: the code unit at [i], [undefined] past the end. *)
Definition charAt (s : jsstring) (i : nat) : option N := nth_error s i.

(** [c === ' '] for a possibly undefined [c]. *)
Definition isSpace (c : option N) : bool :=
  match c with
  | Some c => N.eqb c SPACE
  | None => false
  end.

(** The class [\s] of an ECMAScript regular expression: WhiteSpace and
    LineTerminator code points. *)
Definition whiteSpace : list N :=
  [ 9; 10; 11; 12; 13; 32; 160; 5760;
    8192; 8193; 8194; 8195; 8196; 8197; 8198; 8199; 8200; 8201; 8202;
    8232; 8233; 8239; 8287; 12288; 65279 ]%N.

Definition isWs (c : N) : bool := member whiteSpace c.

(** ** The constants of the two source files *)

Definition GRID_COLS : nat := 10.

Definition PUNCTUATION : list N := [46; 44; 33; 63]%N.    (* . , ! ? *)
Definition FORBIDDEN_START_CHARS : list N := PUNCTUATION ++ [RDQUO; RSQUO; RPAREN].
Definition OPENING : list N := [LDQUO; LSQUO].            (* the class of rule 3, first half *)
Definition CLOSING : list N := [RDQUO; RSQUO].            (* the class of rule 3, second half *)

(** ** The text normalizer

    [' ' + text.replace(/\n/g, ' ').replace(/([.,!?])\s+/g, '$1')
                .replace(/([“‘])\s+/g, '$1').replace(/\s+([”’])/g, '$1')]

    The same expression opens both walks. *)

(** [.replace(/\n/g, ' ')] *)
Definition replaceNewlines (s : jsstring) : jsstring :=
  map (fun c => if N.eqb c NEWLINE then SPACE else c) s.

(** [.replace(/([cls])\s+/g, '$1')]: a global replace scans left to right and
    its matches do not overlap; a match is one code unit of the class and the
    whole run of [\s] after it, and it is replaced by the code unit alone.
    [inRun] says that the scan is inside such a run. *)
Fixpoint dropSpaceAfter (cls : list N) (inRun : bool) (s : jsstring) : jsstring :=
  match s with
  | [] => []
  | c :: r =>
      if inRun && isWs c then dropSpaceAfter cls true r
      else c :: dropSpaceAfter cls (member cls c) r
  end.

(** The first code unit after the leading run of [\s], if any. *)
Fixpoint afterSpaces (s : jsstring) : option N :=
  match s with
  | [] => None
  | c :: r => if isWs c then afterSpaces r else Some c
  end.

(** [.replace(/\s+([cls])/g, '$1')]: a match is a whole run of [\s] that is
    followed at once by a code unit of the class (a shorter run is followed
    by [\s], which is not in the class); the run goes, the code unit stays. *)
Fixpoint dropSpaceBefore (cls : list N) (s : jsstring) : jsstring :=
  match s with
  | [] => []
  | c :: r =>
      if isWs c && includes cls (afterSpaces r) then dropSpaceBefore cls r
      else c :: dropSpaceBefore cls r
  end.

(** The three replacements, without the leading space. *)
Definition replaced (text : jsstring) : jsstring :=
  dropSpaceBefore CLOSING
    (dropSpaceAfter OPENING false
       (dropSpaceAfter PUNCTUATION false (replaceNewlines text))).

Definition cleanText (text : jsstring) : jsstring := SPACE :: replaced text.

(** ** While loops

    Both walks are [while] loops over a small state.  [while] runs a loop on
    a budget of iterations and answers [None] when the budget is used up
    before the condition turns false. *)

Section While.
Variable St : Type.
Variable cond : St -> bool.
Variable body : St -> St.

Fixpoint while (fuel : nat) (s : St) : option St :=
  match fuel with
  | O => None
  | S fuel' => if cond s then while fuel' (body s) else Some s
  end.

(** The states the loop goes through when started in [s0]. *)
Inductive reachable (s0 : St) : St -> Prop :=
| reach_start : reachable s0 s0
| reach_iter : forall s, reachable s0 s -> cond s = true -> reachable s0 (body s).
End While.

Arguments while {St} cond body fuel s.
Arguments reachable {St} cond body s0 _.
Arguments reach_start {St cond body s0}.
Arguments reach_iter {St cond body s0} s _ _.

(** ** Cells *)

(** [{ char: string, subChar?: string }] *)
Record Cell := mkCell { char : jsstring; subChar : option jsstring }.

(** [{ char: '' }] *)
Definition emptyCell : Cell := mkCell [] None.

(** A one-code-unit string read from the text ([undefined] cannot occur
    where the source reads [cleanText[textIndex]]: the loop condition has
    just checked the index). *)
Definition single (c : option N) : jsstring :=
  match c with
  | Some c => [c]
  | None => []
  end.

(** ** calculateRequiredRows (src/App.tsx) *)

Module App.

Record State := mkState { textIndex : nat; cellCount : nat }.

Definition init : State := mkState 0 0.

(** [textIndex < cleanText.length] *)
Definition cond (cleanText : jsstring) (st : State) : bool :=
  textIndex st <? length cleanText.

Definition body (cleanText : jsstring) (st : State) : State :=
  let char := charAt cleanText (textIndex st) in
  if isSpace char && (0 <? cellCount st) && (cellCount st mod GRID_COLS =? 0) then
    mkState (textIndex st + 1) (cellCount st)
  else
    let nextChar := charAt cleanText (textIndex st + 1) in
    let isEndOfLine := (cellCount st + 1) mod GRID_COLS =? 0 in
    let isNextForbiddenStart := includes FORBIDDEN_START_CHARS nextChar in
    if isEndOfLine && isNextForbiddenStart then
      mkState (textIndex st + 2) (cellCount st + 1)
    else
      mkState (textIndex st + 1) (cellCount st + 1).

(** The loop, on a budget of one iteration per code unit and one more for
    the final test (a larger budget changes nothing, see the facts about
    [while] below). *)
Definition walk (cleanText : jsstring) : option State :=
  while (cond cleanText) (body cleanText) (S (length cleanText)) init.

(** [Math.ceil(cellCount / GRID_COLS)]: the quotient of two integers that
    a double holds exactly is rounded up to the next integer. *)
Definition ceilDiv (n d : nat) : nat := (n + (d - 1)) / d.

(** The count of cells the walk ends with. *)
Definition countCells (text : jsstring) : option nat :=
  option_map cellCount (walk (cleanText text)).

Definition calculateRequiredRows (text : jsstring) : option Z :=
  option_map (fun n => Z.max 5 (Z.of_nat (ceilDiv n GRID_COLS))) (countCells text).

End App.

(** ** The GridNotebook component *)

Module GridNotebook.

Record State := mkState { textIndex : nat; displayCells : list Cell }.

Definition init : State := mkState 0 [].

(** [rows * GRID_COLS] *)
Definition maxCharsOf (rows : Z) : Z := (rows * Z.of_nat GRID_COLS)%Z.

(** [textIndex < cleanText.length && displayCells.length < maxChars] *)
Definition cond (cleanText : jsstring) (maxChars : Z) (st : State) : bool :=
  (textIndex st <? length cleanText)
  && (Z.of_nat (length (displayCells st)) <? maxChars)%Z.

Definition body (cleanText : jsstring) (st : State) : State :=
  let char := charAt cleanText (textIndex st) in
  if isSpace char && (0 <? length (displayCells st))
     && (length (displayCells st) mod GRID_COLS =? 0) then
    mkState (textIndex st + 1) (displayCells st)
  else
    let nextChar := charAt cleanText (textIndex st + 1) in
    let currentCellIndex := length (displayCells st) in
    let isEndOfLine := (currentCellIndex + 1) mod GRID_COLS =? 0 in
    let isNextForbiddenStart := includes FORBIDDEN_START_CHARS nextChar in
    if isEndOfLine && isNextForbiddenStart then
      mkState (textIndex st + 2)
              (displayCells st ++ [mkCell (single char) (Some (single nextChar))])
    else
      mkState (textIndex st + 1)
              (displayCells st ++ [mkCell (single char) None]).

(** The first loop. *)
Definition walk (cleanText : jsstring) (maxChars : Z) : option State :=
  while (cond cleanText maxChars) (body cleanText) (S (length cleanText)) init.

(** The second loop: [while (displayCells.length < maxChars)
    displayCells.push({ char: '' })]. *)
Definition fillCond (maxChars : Z) (cells : list Cell) : bool :=
  (Z.of_nat (length cells) <? maxChars)%Z.

Definition fillBody (cells : list Cell) : list Cell := cells ++ [emptyCell].

Definition fill (maxChars : Z) (cells : list Cell) : option (list Cell) :=
  while (fillCond maxChars) fillBody
        (S (Z.to_nat (maxChars - Z.of_nat (length cells)))) cells.

(** [displayCells] as the component holds it when it starts to render. *)
Definition buildGrid (text : jsstring) (rows : Z) : option (list Cell) :=
  let maxChars := maxCharsOf rows in
  match walk (cleanText text) maxChars with
  | Some st => fill maxChars (displayCells st)
  | None => None
  end.

End GridNotebook.

(** The cells the first loop has emitted when it stops. *)
Definition emitted (text : jsstring) (rows : Z) : option (list Cell) :=
  option_map GridNotebook.displayCells
    (GridNotebook.walk (cleanText text) (GridNotebook.maxCharsOf rows)).

(** ** Vocabulary of the statements *)

(** A code unit that must not start a line. *)
Definition forbidden (c : N) : Prop := In c FORBIDDEN_START_CHARS.

(** A cell the walk has emitted holds one code unit of the text. *)
Definition glyph (cell : Cell) : Prop := exists c, char cell = [c].


(** The last cell of a row. *)
Definition lastColumn (k : nat) : Prop := (k + 1) mod GRID_COLS = 0.

(** [d] comes right after [p] somewhere in [s]. *)
Definition follows (s : jsstring) (p d : N) : Prop :=
  exists i, charAt s i = Some p /\ charAt s (i + 1) = Some d.

(** The state of the counting walk that a state of the materialising walk
    stands for. *)
Definition counted (st : GridNotebook.State) : App.State :=
  App.mkState (GridNotebook.textIndex st) (length (GridNotebook.displayCells st)).





(** The invariant of a cell at index [k] of the grid. *)
Definition cellOk (clean : jsstring) (k : nat) (cell : Cell) : Prop :=
  length (char cell) <= 1 /\
  forall sub, subChar cell = Some sub ->
    lastColumn k /\
    exists p d, char cell = [p] /\ sub = [d] /\ forbidden d /\ follows clean p d.

(** Text on which the three replacements find nothing to do. *)
Definition startsWithWs (s : jsstring) : bool :=
  match s with
  | c :: _ => isWs c
  | [] => false
  end.

Fixpoint noSpaceAfter (cls : list N) (s : jsstring) : bool :=
  match s with
  | [] => true
  | c :: r => negb (member cls c && startsWithWs r) && noSpaceAfter cls r
  end.

Fixpoint noSpaceBefore (cls : list N) (s : jsstring) : bool :=
  match s with
  | [] => true
  | c :: r => negb (isWs c && includes cls (hd_error r)) && noSpaceBefore cls r
  end.

Definition normalized (s : jsstring) : bool :=
  negb (member s NEWLINE)
  && noSpaceAfter PUNCTUATION s && noSpaceAfter OPENING s && noSpaceBefore CLOSING s.

Definition singleLeadingSpace (s : jsstring) : bool :=
  match s with
  | c :: r => N.eqb c SPACE && negb (isSpace (hd_error r))
  | [] => false
  end.

Definition alreadyNormalized (s : jsstring) : bool :=
  normalized s && singleLeadingSpace s.

(** [s] without its leading run of [\s]: where the scan of a regular
    expression resumes after a match of [\s+]. *)
Fixpoint stripWs (s : jsstring) : jsstring :=
  match s with
  | [] => []
  | c :: r => if isWs c then stripWs r else s
  end.

(** A code unit outside the class [\s]. *)
Definition nonWs (c : N) : Prop := isWs c = false.

(** A cell holding one code unit and no companion. *)
Definition plainCell (c : N) : Cell := mkCell [c] None.

(** The start of the grid of the squeeze example. *)
Definition squeezeRow : list Cell :=
  map plainCell (str " 12345678")
  ++ [mkCell (str "9") (Some (str "."))]
  ++ map plainCell (str "rest").

(** ** Rendering: the rest of the GridNotebook component *)

Module Render.

(** [cells.slice(a, b)] for [0 <= a <= b]: the cells from index [a] up to,
    not including, index [b], fewer when the array ends before. *)
Definition slice (cells : list Cell) (a b : nat) : list Cell :=
  firstn (b - a) (skipn a cells).

(** [for (let i = 0; i < displayCells.length; i += GRID_COLS)
      gridRows.push(displayCells.slice(i, i + GRID_COLS))] *)
Record State := mkState { i : nat; gridRows : list (list Cell) }.

Definition init : State := mkState 0 [].

Definition cond (displayCells : list Cell) (st : State) : bool :=
  i st <? length displayCells.

Definition body (displayCells : list Cell) (st : State) : State :=
  mkState (i st + GRID_COLS)
          (gridRows st ++ [slice displayCells (i st) (i st + GRID_COLS)]).

Definition group (displayCells : list Cell) : option (list (list Cell)) :=
  option_map gridRows
    (while (cond displayCells) (body displayCells) (S (length displayCells)) init).

Definition CLOSE_QUOTES : list N := [RDQUO; RSQUO; 34; 39; RPAREN]%N.

(** [xs.includes(s)] for an array [xs] of one-code-unit strings and a
    string [s]. *)
Definition includesStr (xs : list N) (s : jsstring) : bool :=
  match s with
  | [c] => member xs c
  | _ => false
  end.

(** A string as a condition: the empty string is falsy. *)
Definition truthy (s : jsstring) : bool :=
  match s with
  | [] => false
  | _ => true
  end.

(** [cell.subChar || ''] *)
Definition subCharOrEmpty (cell : Cell) : jsstring :=
  match subChar cell with
  | Some s => if truthy s then s else []
  | None => []
  end.

Definition isSubCharQuote (cell : Cell) : bool :=
  includesStr CLOSE_QUOTES (subCharOrEmpty cell).
Definition isPunctuationWithQuote (cell : Cell) : bool :=
  includesStr PUNCTUATION (char cell) && isSubCharQuote cell.

(** The corner of the cell that holds the companion:
    [top-2 right-2] or [bottom-0 right-1]. *)
Inductive Corner := TopRight | BottomRight.

(** [{cell.subChar && (<span ...>)}]: the companion is rendered when
    [subChar] is a non-empty string, in the corner the test picks. *)
Definition companionCorner (cell : Cell) : option Corner :=
  match subChar cell with
  | Some s =>
      if truthy s
      then Some (if isPunctuationWithQuote cell then TopRight else BottomRight)
      else None
  | None => None
  end.

End Render.

(** ** The editor: the row count held by the App component *)

Module Editor.

(** The two pieces of state the grid depends on:
    [const [content, setContent] = useState('')] and
    [const [rows, setRows] = useState(5)]. *)
Record Model := mkModel { content : jsstring; rows : Z }.

Definition initial : Model := mkModel [] 5.

(** [handleContentChange]: [setRows(requiredRows)] when it differs from
    [rows], then [setContent(newText)]. *)
Definition handleContentChange (newText : jsstring) (m : Model) : option Model :=
  match App.calculateRequiredRows newText with
  | Some requiredRows =>
      Some (mkModel newText
              (if negb (Z.eqb requiredRows (rows m)) then requiredRows else rows m))
  | None => None
  end.

(** [setRows(prev => prev + 1)] *)
Definition handleAddLine (m : Model) : Model := mkModel (content m) (rows m + 1).

(** [setRows(prev => Math.max(5, prev - 1))] *)
Definition handleRemoveLine (m : Model) : Model :=
  mkModel (content m) (Z.max 5 (rows m - 1)).

(** What [localStorage] holds for the chosen date: nothing, something
    [JSON.parse] throws on, or an object whose [content] is a string or is
    missing. *)
Inductive Saved := NoData | Unparsable | Parsed (savedContent : option jsstring).

(** The effect that runs when the date changes.  [parsed.content || '']
    goes to [content]; a non-empty [parsed.content] has its rows counted,
    anything else gets 5 rows.  A parse error is caught before any state is
    set. *)
Definition load (saved : Saved) (m : Model) : option Model :=
  match saved with
  | NoData => Some (mkModel [] 5)
  | Unparsable => Some m
  | Parsed None => Some (mkModel [] 5)
  | Parsed (Some s) =>
      if Render.truthy s
      then option_map (mkModel s) (App.calculateRequiredRows s)
      else Some (mkModel [] 5)
  end.

(** [<GridNotebook text={content} rows={rows} />] in the editor and
    [rows={Math.max(rows, 8)}] in the two-page view. *)
Definition editorRows (m : Model) : Z := rows m.
Definition viewRows (m : Model) : Z := Z.max (rows m) 8.

Inductive Event :=
| ContentChange (newText : jsstring)
| AddLine
| RemoveLine
| Load (saved : Saved).

Definition step (e : Event) (m : Model) : option Model :=
  match e with
  | ContentChange newText => handleContentChange newText m
  | AddLine => Some (handleAddLine m)
  | RemoveLine => Some (handleRemoveLine m)
  | Load saved => load saved m
  end.

Fixpoint run (es : list Event) (m : Model) : option Model :=
  match es with
  | [] => Some m
  | e :: es' =>
      match step e m with
      | Some m' => run es' m'
      | None => None
      end
  end.

End Editor.

(** A grid of [rows] rows holds every cell the counting walk counted for
    [text]. *)
Definition showsAll (text : jsstring) (rows : Z) : Prop :=
  exists n cells,
    App.countCells text = Some n
    /\ emitted text rows = Some cells
    /\ length cells = n.

(** ** The earlier version of the two walks

    The repository also holds the earlier [App] and [GridNotebook], from
    before quotation marks were handled: the normalizer has the first two
    replacements only and the squeeze looks for . , ! ? alone. *)

Module Legacy.

(** [' ' + text.replace(/\n/g, ' ').replace(/([.,!?])\s+/g, '$1')] *)
Definition cleanText (text : jsstring) : jsstring :=
  SPACE :: dropSpaceAfter PUNCTUATION false (replaceNewlines text).

Definition countBody (cleanText : jsstring) (st : App.State) : App.State :=
  let char := charAt cleanText (App.textIndex st) in
  if isSpace char && (0 <? App.cellCount st)
     && (App.cellCount st mod GRID_COLS =? 0) then
    App.mkState (App.textIndex st + 1) (App.cellCount st)
  else
    let nextChar := charAt cleanText (App.textIndex st + 1) in
    let isNextPunctuation := includes [46; 44; 33; 63]%N nextChar in
    let isEndOfLine := (App.cellCount st + 1) mod GRID_COLS =? 0 in
    if isEndOfLine && isNextPunctuation then
      App.mkState (App.textIndex st + 2) (App.cellCount st + 1)
    else
      App.mkState (App.textIndex st + 1) (App.cellCount st + 1).

Definition calculateRequiredRows (text : jsstring) : option Z :=
  option_map
    (fun st => Z.max 5 (Z.of_nat (App.ceilDiv (App.cellCount st) GRID_COLS)))
    (while (App.cond (cleanText text)) (countBody (cleanText text))
           (S (length (cleanText text))) App.init).

Definition gridBody (cleanText : jsstring) (st : GridNotebook.State)
  : GridNotebook.State :=
  let char := charAt cleanText (GridNotebook.textIndex st) in
  if isSpace char && (0 <? length (GridNotebook.displayCells st))
     && (length (GridNotebook.displayCells st) mod GRID_COLS =? 0) then
    GridNotebook.mkState (GridNotebook.textIndex st + 1) (GridNotebook.displayCells st)
  else
    let nextChar := charAt cleanText (GridNotebook.textIndex st + 1) in
    let isNextPunctuation := includes [46; 44; 33; 63]%N nextChar in
    let currentCellIndex := length (GridNotebook.displayCells st) in
    let isEndOfLine := (currentCellIndex + 1) mod GRID_COLS =? 0 in
    if isEndOfLine && isNextPunctuation then
      GridNotebook.mkState (GridNotebook.textIndex st + 2)
        (GridNotebook.displayCells st ++ [mkCell (single char) (Some (single nextChar))])
    else
      GridNotebook.mkState (GridNotebook.textIndex st + 1)
        (GridNotebook.displayCells st ++ [mkCell (single char) None]).

Definition buildGrid (text : jsstring) (rows : Z) : option (list Cell) :=
  let maxChars := GridNotebook.maxCharsOf rows in
  match while (GridNotebook.cond (cleanText text) maxChars) (gridBody (cleanText text))
              (S (length (cleanText text))) GridNotebook.init with
  | Some st => GridNotebook.fill maxChars (GridNotebook.displayCells st)
  | None => None
  end.

End Legacy.

(** The code units the later version added rules for. *)
Definition ADDED : list N := [LDQUO; LSQUO; RDQUO; RSQUO; RPAREN].

(** [s] holds none of them. *)
Definition withoutAdded (s : jsstring) : bool :=
  forallb (fun c => negb (member ADDED c)) s.

(** ** Further vocabulary *)

(** The code units of [s] outside the class [\s], in order. *)
Definition visible (s : jsstring) : jsstring := filter (fun c => negb (isWs c)) s.

(** The code units of [s] other than the space, in order. *)
Definition withoutSpaces (s : jsstring) : jsstring :=
  filter (fun c => negb (N.eqb c SPACE)) s.

(** The code units a cell shows: its primary, then its companion. *)
Definition cellGlyphs (cell : Cell) : jsstring :=
  char cell ++ match subChar cell with Some s => s | None => [] end.

(** The code units a sequence of cells shows, in reading order. *)
Definition glyphs (cells : list Cell) : jsstring := flat_map cellGlyphs cells.

(** * Facts about [while] *)

Section WhileFacts.
Variable St : Type.
Variable cond : St -> bool.
Variable body : St -> St.

Lemma while_more_fuel (f f' : nat) (s r : St) :
  while cond body f s = Some r -> f <= f' -> while cond body f' s = Some r.
Proof.
  revert f' s; induction f as [|f IH]; intros f' s H Hle; [discriminate|].
  destruct f' as [|f']; [lia|].
  simpl in *. destruct (cond s); [|assumption].
  apply IH; [assumption | lia].
Qed.

Lemma while_reachable (f : nat) (s r : St) :
  while cond body f s = Some r -> reachable cond body s r /\ cond r = false.
Proof.
  revert s; induction f as [|f IH]; intros s H; [discriminate|].
  simpl in H. destruct (cond s) eqn:C.
  - destruct (IH _ H) as [R E]. split; [|exact E].
    clear - R C. induction R.
    + apply reach_iter; [apply reach_start | exact C].
    + apply reach_iter; assumption.
  - injection H as <-. split; [apply reach_start | exact C].
Qed.

(** A loop whose body lowers a measure stops within that many iterations. *)
Lemma while_terminates (m : St -> nat) :
  (forall s, cond s = true -> m (body s) < m s) ->
  forall f s, m s < f -> exists r, while cond body f s = Some r.
Proof.
  intros Hm f; induction f as [|f IH]; intros s Hf; [lia|].
  simpl. destruct (cond s) eqn:C.
  - apply IH. specialize (Hm s C). lia.
  - eauto.
Qed.

(** The loop is deterministic: from a state on the way it ends where the
    whole run ends. *)
Lemma while_from_reachable (s0 s r : St) :
  reachable cond body s0 s ->
  forall f, while cond body f s0 = Some r ->
  exists f', while cond body f' s = Some r.
Proof.
  induction 1 as [|s R IH C]; intros f H; [eauto|].
  destruct (IH _ H) as [f' H'].
  destruct f' as [|f']; [discriminate|].
  simpl in H'. rewrite C in H'. eauto.
Qed.

Lemma while_stopped (f : nat) (s r : St) :
  cond s = false -> while cond body f s = Some r -> r = s.
Proof.
  destruct f as [|f]; [discriminate|]. simpl. intros ->. congruence.
Qed.

(** A relation that every iteration respects holds between start and end. *)
Lemma while_preserves (R : St -> St -> Prop) :
  (forall s, R s s) ->
  (forall s r, cond s = true -> R (body s) r -> R s r) ->
  forall f s r, while cond body f s = Some r -> R s r.
Proof.
  intros Hrefl Hstep f; induction f as [|f IH]; intros s r H; [discriminate|].
  simpl in H. destruct (cond s) eqn:C.
  - apply Hstep; [exact C | apply IH; exact H].
  - injection H as <-. apply Hrefl.
Qed.
End WhileFacts.

(** * The materialising walk *)

Section GridWalk.
Import GridNotebook.
Variable clean : jsstring.

Lemma charAt_some (i : nat) :
  i < length clean -> exists c, charAt clean i = Some c.
Proof.
  intros H. unfold charAt. destruct (nth_error clean i) eqn:E; [eauto|].
  apply nth_error_None in E. lia.
Qed.

Lemma charAt_lt (i : nat) (c : N) : charAt clean i = Some c -> i < length clean.
Proof. intros H. apply nth_error_Some. unfold charAt in H. congruence. Qed.

(** The three ways an iteration can go. *)
Lemma body_cases (st : State) :
  textIndex st < length clean ->
  exists c, charAt clean (textIndex st) = Some c /\
    let n := length (displayCells st) in
    (c = SPACE /\ 0 < n /\ n mod 10 = 0 /\
     body clean st = mkState (textIndex st + 1) (displayCells st))
    \/ (~ (c = SPACE /\ 0 < n /\ n mod 10 = 0) /\ (n + 1) mod 10 = 0 /\
        exists d, charAt clean (textIndex st + 1) = Some d /\
          member FORBIDDEN_START_CHARS d = true /\
          body clean st = mkState (textIndex st + 2)
                            (displayCells st ++ [mkCell [c] (Some [d])]))
    \/ (~ (c = SPACE /\ 0 < n /\ n mod 10 = 0) /\
        ~ ((n + 1) mod 10 = 0 /\
           includes FORBIDDEN_START_CHARS (charAt clean (textIndex st + 1)) = true) /\
        body clean st = mkState (textIndex st + 1)
                          (displayCells st ++ [mkCell [c] None])).
Proof.
  intros Hlt. destruct (charAt_some _ Hlt) as [c Hc]. exists c. split; [exact Hc|].
  cbv zeta. unfold body, GRID_COLS. rewrite Hc. cbn [single].
  set (n := length (displayCells st)).
  assert (Hskip : isSpace (Some c) && (0 <? n) && (n mod 10 =? 0) = true
                  <-> c = SPACE /\ 0 < n /\ n mod 10 = 0).
  { cbn [isSpace]. rewrite !andb_true_iff, N.eqb_eq, Nat.ltb_lt, Nat.eqb_eq. tauto. }
  destruct (isSpace (Some c) && (0 <? n) && (n mod 10 =? 0)).
  { left. destruct (proj1 Hskip eq_refl) as (? & ? & ?). repeat split; assumption. }
  assert (Hno : ~ (c = SPACE /\ 0 < n /\ n mod 10 = 0)).
  { intros H. apply Hskip in H. discriminate. }
  right.
  set (next := charAt clean (textIndex st + 1)).
  assert (Hsq : ((n + 1) mod 10 =? 0) && includes FORBIDDEN_START_CHARS next = true
                <-> (n + 1) mod 10 = 0 /\ includes FORBIDDEN_START_CHARS next = true).
  { rewrite andb_true_iff, Nat.eqb_eq. tauto. }
  destruct (((n + 1) mod 10 =? 0) && includes FORBIDDEN_START_CHARS next).
  - left. destruct (proj1 Hsq eq_refl) as [E F].
    split; [exact Hno|]. split; [exact E|].
    destruct next as [d|]; [|discriminate]. exists d. repeat split. exact F.
  - right. split; [exact Hno|]. split; [|reflexivity].
    intros H. apply Hsq in H. discriminate.
Qed.

(** The read cursor moves forward in every iteration. *)
Lemma body_advances (st : State) :
  textIndex st < textIndex (body clean st).
Proof.
  unfold body.
  repeat match goal with |- context [if ?b then _ else _] => destruct b end;
    cbn [textIndex]; lia.
Qed.

Lemma body_extends (st : State) :
  exists ext, displayCells (body clean st) = displayCells st ++ ext.
Proof.
  unfold body.
  repeat match goal with |- context [if ?b then _ else _] => destruct b end;
    cbn [displayCells]; eauto.
  exists []. now rewrite app_nil_r.
Qed.

Variable maxChars : Z.

Lemma cond_true (st : State) :
  cond clean maxChars st = true <->
  textIndex st < length clean /\ (Z.of_nat (length (displayCells st)) < maxChars)%Z.
Proof.
  unfold cond. rewrite andb_true_iff, Nat.ltb_lt, Z.ltb_lt. tauto.
Qed.

Lemma cond_false (st : State) :
  cond clean maxChars st = false <->
  length clean <= textIndex st \/ (maxChars <= Z.of_nat (length (displayCells st)))%Z.
Proof.
  unfold cond. rewrite andb_false_iff, Nat.ltb_ge, Z.ltb_ge. tauto.
Qed.

Lemma walk_total : exists st, walk clean maxChars = Some st.
Proof.
  unfold walk.
  apply while_terminates with (m := fun st => length clean - textIndex st); [|cbn; lia].
  intros st C. apply cond_true in C. pose proof (body_advances st). lia.
Qed.

Lemma fill_steps (n : nat) (cells : list Cell) :
  Z.to_nat (maxChars - Z.of_nat (length cells)) = n ->
  while (fillCond maxChars) fillBody (S n) cells = Some (cells ++ repeat emptyCell n).
Proof.
  revert cells; induction n as [|n IH]; intros cells En.
  - cbn. unfold fillCond. destruct (Z.ltb_spec (Z.of_nat (length cells)) maxChars); [lia|].
    now rewrite app_nil_r.
  - change (while (fillCond maxChars) fillBody (S (S n)) cells)
      with (if fillCond maxChars cells
            then while (fillCond maxChars) fillBody (S n) (fillBody cells)
            else Some cells).
    unfold fillCond at 1.
    destruct (Z.ltb_spec (Z.of_nat (length cells)) maxChars); [|lia].
    rewrite IH.
    + unfold fillBody. now rewrite <- app_assoc.
    + unfold fillBody. rewrite length_app. cbn [length]. lia.
Qed.

Lemma fill_closed (cells : list Cell) :
  fill maxChars cells =
  Some (cells ++ repeat emptyCell (Z.to_nat (maxChars - Z.of_nat (length cells)))).
Proof. unfold fill. now apply fill_steps. Qed.
End GridWalk.

(** ** Invariants of the materialising walk *)

Lemma nth_error_snoc (A : Type) (l : list A) (x y : A) (k : nat) :
  nth_error (l ++ [x]) k = Some y ->
  (k < length l /\ nth_error l k = Some y) \/ (k = length l /\ y = x).
Proof.
  intros H. destruct (Nat.lt_ge_cases k (length l)) as [L|L].
  - left. split; [exact L|]. now rewrite nth_error_app1 in H.
  - right. rewrite nth_error_app2 in H by exact L.
    destruct (k - length l) as [|j] eqn:E.
    + cbn in H. split; [lia | congruence].
    + cbn in H. destruct j; discriminate.
Qed.

Lemma includes_forbidden (d : N) :
  member FORBIDDEN_START_CHARS d = true <-> forbidden d.
Proof.
  unfold member, includes, forbidden. rewrite existsb_exists. split.
  - intros (x & Hin & E). apply N.eqb_eq in E. now subst.
  - intros Hin. exists d. split; [exact Hin | apply N.eqb_refl].
Qed.

Section GridInvariants.
Import GridNotebook.
Variable clean : jsstring.
Variable maxChars : Z.

Local Abbreviation reach := (reachable (cond clean maxChars) (body clean) init).

Lemma reach_bounds (st : State) :
  reach st ->
  textIndex st <= length clean
  /\ length (displayCells st) <= textIndex st
  /\ (Z.of_nat (length (displayCells st)) <= Z.max 0 maxChars)%Z.
Proof.
  induction 1 as [|st R IH C]; [cbn; lia|].
  apply cond_true in C. destruct C as [Ht Hm].
  destruct (body_cases clean st Ht) as (c & Hc & Hcase). cbv zeta in Hcase.
  destruct Hcase as [(_ & _ & _ & ->)|[(_ & _ & d & Hd & _ & ->)|(_ & _ & ->)]];
    cbn [textIndex displayCells]; rewrite ?length_app; cbn [length];
    try apply charAt_lt in Hd; lia.
Qed.

Lemma reach_glyphs (st : State) :
  reach st -> Forall glyph (displayCells st).
Proof.
  induction 1 as [|st R IH C]; [constructor|].
  apply cond_true in C. destruct C as [Ht Hm].
  destruct (body_cases clean st Ht) as (c & Hc & Hcase). cbv zeta in Hcase.
  destruct Hcase as [(_ & _ & _ & ->)|[(_ & _ & d & Hd & _ & ->)|(_ & _ & ->)]];
    cbn [displayCells]; [exact IH| |];
    (apply Forall_app; split; [exact IH|]; constructor; [|constructor]; now exists c).
Qed.

Lemma reach_cells (st : State) :
  reach st ->
  forall k cell, nth_error (displayCells st) k = Some cell -> cellOk clean k cell.
Proof.
  induction 1 as [|st R IH C]; [intros [|k] cell H; discriminate|].
  apply cond_true in C. destruct C as [Ht Hm].
  destruct (body_cases clean st Ht) as (c & Hc & Hcase). cbv zeta in Hcase.
  destruct Hcase as [(_ & _ & _ & ->)|[(_ & E & d & Hd & F & ->)|(_ & _ & ->)]];
    cbn [displayCells]; [exact IH| |];
    intros k cell H; apply nth_error_snoc in H;
    destruct H as [[_ H]|[-> ->]]; try (apply IH; exact H).
  - split; [cbn; lia|]. cbn [subChar char]. intros sub [= <-].
    split; [exact E|]. exists c, d. repeat split.
    + now apply includes_forbidden.
    + now exists (textIndex st).
  - split; [cbn; lia|]. cbn [subChar]. discriminate.
Qed.

End GridInvariants.

(** * The counting walk and its agreement with the materialising walk *)

Section CountWalk.
Variable clean : jsstring.

Lemma count_advances (st : App.State) :
  App.textIndex st < App.textIndex (App.body clean st).
Proof.
  unfold App.body.
  repeat match goal with |- context [if ?b then _ else _] => destruct b end;
    cbn [App.textIndex]; lia.
Qed.

Lemma count_grows (st : App.State) :
  App.cellCount st <= App.cellCount (App.body clean st).
Proof.
  unfold App.body.
  repeat match goal with |- context [if ?b then _ else _] => destruct b end;
    cbn [App.cellCount]; lia.
Qed.

Lemma count_walk_total : exists st, App.walk clean = Some st.
Proof.
  unfold App.walk.
  apply while_terminates with (m := fun st => length clean - App.textIndex st);
    [|cbn; lia].
  intros st C. unfold App.cond in C. apply Nat.ltb_lt in C.
  pose proof (count_advances st). lia.
Qed.

(** One iteration of the materialising walk is one iteration of the
    counting walk on the counted state: the same tests, the same moves. *)
Lemma counted_body (st : GridNotebook.State) :
  counted (GridNotebook.body clean st) = App.body clean (counted st).
Proof.
  unfold GridNotebook.body, App.body, counted.
  cbn [App.textIndex App.cellCount].
  repeat match goal with |- context [if ?b then _ else _] => destruct b end;
    cbn [GridNotebook.textIndex GridNotebook.displayCells];
    rewrite ?length_app; reflexivity.
Qed.

Lemma counted_reachable (maxChars : Z) (st : GridNotebook.State) :
  reachable (GridNotebook.cond clean maxChars) (GridNotebook.body clean)
            GridNotebook.init st ->
  reachable (App.cond clean) (App.body clean) App.init (counted st).
Proof.
  induction 1 as [|st R IH C]; [apply reach_start|].
  rewrite counted_body. apply reach_iter; [exact IH|].
  apply cond_true in C. unfold App.cond, counted. cbn. now apply Nat.ltb_lt.
Qed.

(** On the way, the counting walk never holds more than its final count. *)
Lemma count_below_final (st final : App.State) :
  reachable (App.cond clean) (App.body clean) App.init st ->
  App.walk clean = Some final ->
  App.cellCount st <= App.cellCount final
  /\ (App.cond clean st = false -> st = final).
Proof.
  intros R W. destruct (while_from_reachable _ _ _ _ _ _ R _ W) as [f Hf]. split.
  - revert Hf. apply while_preserves with
      (R := fun s r : App.State => App.cellCount s <= App.cellCount r); [lia|].
    intros s r _ H. pose proof (count_grows s). lia.
  - intros C. symmetry. eapply while_stopped; eassumption.
Qed.

(** The cap is the only difference: the materialising walk emits as many
    cells as the counting walk counts, unless the cap stops it first. *)
Lemma emitted_count (maxChars : Z) (final : App.State) (st : GridNotebook.State) :
  App.walk clean = Some final ->
  GridNotebook.walk clean maxChars = Some st ->
  length (GridNotebook.displayCells st)
  = Nat.min (App.cellCount final) (Z.to_nat maxChars).
Proof.
  intros WA WG. apply while_reachable in WG. destruct WG as [R C].
  pose proof (reach_bounds _ _ _ R) as (_ & _ & Hcap).
  destruct (count_below_final _ _ (counted_reachable _ _ R) WA) as [Hle Hstop].
  cbn [counted App.cellCount] in Hle.
  apply cond_false in C. destruct C as [C|C].
  - assert (E : counted st = final).
    { apply Hstop. unfold App.cond, counted. cbn. now apply Nat.ltb_ge. }
    rewrite <- E in *. cbn [counted App.cellCount]. lia.
  - lia.
Qed.
End CountWalk.

(** * Raising the cap *)

Lemma firstn_repeat (A : Type) (x : A) (k n : nat) :
  firstn k (repeat x n) = repeat x (Nat.min k n).
Proof.
  revert n; induction k as [|k IH]; intros [|n]; cbn; try reflexivity.
  now rewrite IH.
Qed.

Section RaiseCap.
Import GridNotebook.
Variable clean : jsstring.
Variables maxChars maxChars' : Z.
Hypothesis cap_le : (maxChars <= maxChars')%Z.

Lemma reachable_raise (st : State) :
  reachable (cond clean maxChars) (body clean) init st ->
  reachable (cond clean maxChars') (body clean) init st.
Proof.
  induction 1 as [|st R IH C]; [apply reach_start|].
  apply reach_iter; [exact IH|].
  apply cond_true in C. apply cond_true. lia.
Qed.

(** The walk under the higher cap passes through the final state of the
    walk under the lower cap and then only appends. *)
Lemma walk_raise (st st' : State) :
  walk clean maxChars = Some st -> walk clean maxChars' = Some st' ->
  exists ext, displayCells st' = displayCells st ++ ext
    /\ (length clean <= textIndex st -> ext = []).
Proof.
  intros W W'. apply while_reachable in W. destruct W as [R C].
  destruct (while_from_reachable _ _ _ _ _ _ (reachable_raise _ R) _ W') as [f Hf].
  assert (Hext : exists ext, displayCells st' = displayCells st ++ ext).
  { revert Hf. apply while_preserves with
      (R := fun s r : State => exists ext, displayCells r = displayCells s ++ ext).
    - intros s. exists []. now rewrite app_nil_r.
    - intros s r _ [ext E]. destruct (body_extends clean s) as [e1 E1].
      exists (e1 ++ ext). now rewrite E, E1, app_assoc. }
  destruct Hext as [ext E]. exists ext. split; [exact E|].
  intros Hend.
  assert (C' : cond clean maxChars' st = false) by (apply cond_false; now left).
  eapply while_stopped in Hf; [|exact C']. subst st'.
  apply (f_equal (@length Cell)) in E. rewrite length_app in E.
  destruct ext; [reflexivity | cbn in E; lia].
Qed.

Lemma fill_raise (st st' : State) :
  walk clean maxChars = Some st -> walk clean maxChars' = Some st' ->
  displayCells st
    ++ repeat emptyCell (Z.to_nat (maxChars - Z.of_nat (length (displayCells st))))
  = firstn (Z.to_nat maxChars)
      (displayCells st'
         ++ repeat emptyCell (Z.to_nat (maxChars' - Z.of_nat (length (displayCells st'))))).
Proof.
  intros W W'. destruct (walk_raise _ _ W W') as (ext & E & Hend).
  pose proof W as W0. apply while_reachable in W0. destruct W0 as [R C].
  pose proof (reach_bounds _ _ _ R) as (_ & _ & Hcap).
  apply cond_false in C.
  set (n := length (displayCells st)) in *.
  destruct (Z.le_gt_cases maxChars (Z.of_nat n)) as [Hfull|Hroom].
  - (* the cap was reached *)
    replace (Z.to_nat (maxChars - Z.of_nat n)) with 0 by lia.
    cbn [repeat]. rewrite app_nil_r, E, <- app_assoc, firstn_app.
    replace (Z.to_nat maxChars - length (displayCells st)) with 0 by (fold n; lia).
    cbn [firstn]. rewrite app_nil_r.
    symmetry. apply firstn_all2. fold n. lia.
  - (* the text ended first *)
    destruct C as [C|C]; [|lia].
    rewrite (Hend C), app_nil_r in E. rewrite E. fold n.
    rewrite firstn_app, firstn_all2 by (fold n; lia). fold n.
    rewrite firstn_repeat. f_equal. f_equal. lia.
Qed.
End RaiseCap.

(** * The grid *)

Lemma maxCharsOf_10 (rows : Z) : GridNotebook.maxCharsOf rows = (rows * 10)%Z.
Proof. reflexivity. Qed.

(** The grid is the emitted cells followed by empty cells up to the cap. *)
Lemma buildGrid_shape (text : jsstring) (rows : Z) :
  exists st,
    GridNotebook.walk (cleanText text) (GridNotebook.maxCharsOf rows) = Some st
    /\ emitted text rows = Some (GridNotebook.displayCells st)
    /\ length (GridNotebook.displayCells st) <= Z.to_nat (rows * 10)
    /\ GridNotebook.buildGrid text rows
       = Some (GridNotebook.displayCells st
                 ++ repeat emptyCell
                      (Z.to_nat (rows * 10) - length (GridNotebook.displayCells st))).
Proof.
  destruct (walk_total (cleanText text) (GridNotebook.maxCharsOf rows)) as [st W].
  exists st. split; [exact W|].
  unfold emitted, GridNotebook.buildGrid. cbv zeta. rewrite W. cbn [option_map].
  split; [reflexivity|].
  pose proof W as W0. apply while_reachable in W0. destruct W0 as [R _].
  pose proof (reach_bounds _ _ _ R) as (_ & _ & Hcap). rewrite maxCharsOf_10 in *.
  split; [lia|].
  rewrite fill_closed. do 3 f_equal. lia.
Qed.

Lemma buildGrid_raise (text : jsstring) (rows rows' : Z) (g g' : list Cell) :
  (rows <= rows')%Z ->
  GridNotebook.buildGrid text rows = Some g ->
  GridNotebook.buildGrid text rows' = Some g' ->
  g = firstn (Z.to_nat (rows * 10)) g'.
Proof.
  intros Hle. unfold GridNotebook.buildGrid. cbv zeta.
  destruct (GridNotebook.walk (cleanText text) (GridNotebook.maxCharsOf rows))
    as [st|] eqn:W; [|discriminate].
  destruct (GridNotebook.walk (cleanText text) (GridNotebook.maxCharsOf rows'))
    as [st'|] eqn:W'; [|discriminate].
  rewrite !fill_closed. intros [= <-] [= <-].
  eapply fill_raise; [|exact W|exact W'].
  rewrite !maxCharsOf_10. lia.
Qed.

Lemma ceilDiv_covers (n : nat) : n <= App.ceilDiv n GRID_COLS * 10.
Proof. unfold App.ceilDiv, GRID_COLS. cbn [Nat.sub]. lia. Qed.

Lemma Forall_repeat_empty (P : Cell -> Prop) (n : nat) :
  P emptyCell -> Forall P (repeat emptyCell n).
Proof. intros H. induction n; cbn; constructor; assumption. Qed.

(** * The claims *)

(** C3. For every text and every [rows >= 5], the grid has exactly
    [rows * 10] cells: the cells the walk emitted, each holding a code unit
    of the text, and after them only cells with the empty string as primary
    and no companion. *)
Theorem buildGrid_length (text : jsstring) (rows : Z) :
  (5 <= rows)%Z ->
  exists g cells,
    GridNotebook.buildGrid text rows = Some g
    /\ Z.of_nat (length g) = (rows * Z.of_nat GRID_COLS)%Z
    /\ emitted text rows = Some cells
    /\ Forall glyph cells
    /\ g = cells ++ repeat (mkCell [] None) (length g - length cells).
Proof.
  intros Hrows.
  destruct (buildGrid_shape text rows) as (st & W & E & Hlen & G).
  apply while_reachable in W. destruct W as [R _].
  eexists. exists (GridNotebook.displayCells st).
  split; [exact G|].
  rewrite length_app, repeat_length. unfold GRID_COLS.
  split; [lia|]. split; [exact E|]. split; [exact (reach_glyphs _ _ _ R)|].
  do 2 f_equal. lia.
Qed.

Lemma buildGrid_length_witness :
  (5 <= 5)%Z /\
  exists g cells,
    GridNotebook.buildGrid (str "abc") 5 = Some g
    /\ Z.of_nat (length g) = (5 * Z.of_nat GRID_COLS)%Z
    /\ emitted (str "abc") 5 = Some cells
    /\ Forall glyph cells
    /\ g = cells ++ repeat (mkCell [] None) (length g - length cells).
Proof. split; [lia | apply (buildGrid_length (str "abc") 5); lia]. Defined.

(** C1. The counting walk and the materialising walk take the same
    decisions: every state of the materialising walk is, counted, a state of
    the counting walk.  With [rows = calculateRequiredRows text] the grid
    holds exactly as many emitted cells as the counting walk counted, and
    after them [rows * 10 - cellCount] empty cells. *)
Theorem count_agrees_with_grid (text : jsstring) :
  exists n rows cells,
    App.countCells text = Some n
    /\ App.calculateRequiredRows text = Some rows
    /\ emitted text rows = Some cells
    /\ length cells = n
    /\ Forall glyph cells
    /\ GridNotebook.buildGrid text rows
       = Some (cells ++ repeat emptyCell (Z.to_nat (rows * 10) - n))
    /\ forall st,
         reachable (GridNotebook.cond (cleanText text) (GridNotebook.maxCharsOf rows))
                   (GridNotebook.body (cleanText text)) GridNotebook.init st ->
         reachable (App.cond (cleanText text)) (App.body (cleanText text))
                   App.init (counted st).
Proof.
  destruct (count_walk_total (cleanText text)) as [final WA].
  set (n := App.cellCount final).
  set (rows := Z.max 5 (Z.of_nat (App.ceilDiv n GRID_COLS))).
  destruct (buildGrid_shape text rows) as (st & W & E & Hlen & G).
  exists n, rows, (GridNotebook.displayCells st).
  assert (Hn : length (GridNotebook.displayCells st) = n).
  { rewrite (emitted_count _ _ _ _ WA W), maxCharsOf_10. fold n.
    pose proof (ceilDiv_covers n). lia. }
  unfold App.calculateRequiredRows, App.countCells. rewrite WA. cbn [option_map].
  repeat split; try assumption.
  - apply while_reachable in W. destruct W as [R _]. exact (reach_glyphs _ _ _ R).
  - rewrite G, Hn. reflexivity.
  - apply counted_reachable.
Qed.

(** C10. When the text needs more cells than [rows * 10], the walk stops at
    the cap: the grid has exactly [rows * 10] cells, every one of them an
    emitted cell (nothing is padded, the rest of the text is dropped), and
    they are the first [rows * 10] cells that the walk emits under any
    higher cap -- under one that the count does not exceed, the walk emits
    all the cells of the text. *)
Theorem buildGrid_truncates (text : jsstring) (rows rows' : Z) (n : nat) :
  (0 <= rows <= rows')%Z ->
  App.countCells text = Some n ->
  (rows * Z.of_nat GRID_COLS < Z.of_nat n)%Z ->
  exists g cells',
    GridNotebook.buildGrid text rows = Some g
    /\ Z.of_nat (length g) = (rows * Z.of_nat GRID_COLS)%Z
    /\ Forall glyph g
    /\ emitted text rows = Some g
    /\ emitted text rows' = Some cells'
    /\ g = firstn (Z.to_nat (rows * Z.of_nat GRID_COLS)) cells'
    /\ ((Z.of_nat n <= rows' * Z.of_nat GRID_COLS)%Z -> length cells' = n).
Proof.
  unfold GRID_COLS. change (Z.of_nat 10) with 10%Z. intros Hrows Hn Hover.
  unfold App.countCells in Hn.
  destruct (App.walk (cleanText text)) as [final|] eqn:WA; [|discriminate].
  cbn [option_map] in Hn. injection Hn as Hn.
  destruct (buildGrid_shape text rows) as (st & W & E & _ & G).
  destruct (buildGrid_shape text rows') as (st' & W' & E' & _ & _).
  pose proof (emitted_count _ _ _ _ WA W) as L.
  pose proof (emitted_count _ _ _ _ WA W') as L'.
  rewrite maxCharsOf_10, Hn in L, L'.
  replace (Z.to_nat (rows * 10) - length (GridNotebook.displayCells st)) with 0 in G by lia.
  cbn [repeat] in G. rewrite app_nil_r in G.
  exists (GridNotebook.displayCells st), (GridNotebook.displayCells st').
  split; [exact G|]. split; [lia|].
  split. { apply while_reachable in W. destruct W as [R _]. exact (reach_glyphs _ _ _ R). }
  split; [exact E|]. split; [exact E'|].
  split; [|lia].
  assert (Hcap : (GridNotebook.maxCharsOf rows <= GridNotebook.maxCharsOf rows')%Z)
    by (rewrite !maxCharsOf_10; lia).
  destruct (walk_raise _ _ _ Hcap _ _ W W') as (ext & Hext & _).
  rewrite Hext, firstn_app.
  replace (Z.to_nat (rows * 10) - length (GridNotebook.displayCells st)) with 0 by lia.
  cbn [firstn]. rewrite app_nil_r. symmetry. apply firstn_all2. lia.
Qed.

Lemma buildGrid_truncates_witness :
  (0 <= 1 <= 5)%Z
  /\ App.countCells (str "abcdefghijklmnop") = Some 17
  /\ (1 * Z.of_nat GRID_COLS < Z.of_nat 17)%Z
  /\ exists g cells',
      GridNotebook.buildGrid (str "abcdefghijklmnop") 1 = Some g
      /\ Z.of_nat (length g) = (1 * Z.of_nat GRID_COLS)%Z
      /\ Forall glyph g
      /\ emitted (str "abcdefghijklmnop") 1 = Some g
      /\ emitted (str "abcdefghijklmnop") 5 = Some cells'
      /\ g = firstn (Z.to_nat (1 * Z.of_nat GRID_COLS)) cells'
      /\ ((Z.of_nat 17 <= 5 * Z.of_nat GRID_COLS)%Z -> length cells' = 17).
Proof.
  split; [lia|]. split; [reflexivity|]. split; [cbn; lia|].
  apply (buildGrid_truncates (str "abcdefghijklmnop") 1 5 17);
    [lia | reflexivity | cbn; lia].
Defined.

(** C9. Both walks are total.  Every iteration moves the read cursor
    forward, so the budget of one iteration per code unit is never used up:
    [calculateRequiredRows] returns a row count (at least 5) and [buildGrid]
    returns a grid padded to the requested size, for every text. *)
Theorem walks_terminate (text : jsstring) (rows : Z) :
  (forall st, App.textIndex st < App.textIndex (App.body (cleanText text) st))
  /\ (forall st, GridNotebook.textIndex st
                 < GridNotebook.textIndex (GridNotebook.body (cleanText text) st))
  /\ (exists r, App.calculateRequiredRows text = Some r /\ (5 <= r)%Z)
  /\ (exists g, GridNotebook.buildGrid text rows = Some g
        /\ length g = Z.to_nat (rows * Z.of_nat GRID_COLS))
  /\ (forall fuel, S (length (cleanText text)) <= fuel ->
        while (App.cond (cleanText text)) (App.body (cleanText text)) fuel App.init
        = App.walk (cleanText text)
        /\ while (GridNotebook.cond (cleanText text) (GridNotebook.maxCharsOf rows))
                 (GridNotebook.body (cleanText text)) fuel GridNotebook.init
           = GridNotebook.walk (cleanText text) (GridNotebook.maxCharsOf rows)).
Proof.
  split; [intros st; apply count_advances|].
  split; [intros st; apply body_advances|].
  split; [|split]; cycle 2.
  { intros fuel Hfuel.
    destruct (count_walk_total (cleanText text)) as [final WA].
    destruct (walk_total (cleanText text) (GridNotebook.maxCharsOf rows)) as [st W].
    rewrite WA, W. split; eapply while_more_fuel; eassumption. }
  - destruct (count_walk_total (cleanText text)) as [final WA].
    unfold App.calculateRequiredRows, App.countCells. rewrite WA. cbn [option_map].
    eexists. split; [reflexivity | lia].
  - destruct (buildGrid_shape text rows) as (st & _ & _ & Hlen & G).
    eexists. split; [exact G|].
    rewrite length_app, repeat_length. unfold GRID_COLS. lia.
Qed.

(** C8. The empty text needs five rows, and its grid of five rows is the
    blank cell of the reserved leading space followed by 49 empty cells. *)
Theorem empty_text :
  App.calculateRequiredRows (str "") = Some 5%Z
  /\ GridNotebook.buildGrid (str "") 5
     = Some (plainCell SPACE :: repeat emptyCell 49)
  /\ length (plainCell SPACE :: repeat emptyCell 49) = 50.
Proof. repeat split. Qed.

(** C2. For the text 123456789.rest the cell at index 9, the last of the
    first row, holds 9 with the full stop as its companion, and the word
    rest starts in the first cell of the second row (index 10). *)
Theorem squeeze_example (rows : Z) :
  (2 <= rows)%Z ->
  exists g,
    GridNotebook.buildGrid (str "123456789.rest") rows = Some g
    /\ nth_error g 9 = Some (mkCell (str "9") (Some (str ".")))
    /\ nth_error g 10 = Some (plainCell 114)
    /\ firstn 14 g = squeezeRow.
Proof.
  intros Hrows.
  destruct (buildGrid_shape (str "123456789.rest") rows) as (st & _ & _ & _ & G).
  eexists. split; [exact G|].
  assert (G2 : GridNotebook.buildGrid (str "123456789.rest") 2
               = Some (squeezeRow ++ repeat emptyCell 6)) by reflexivity.
  pose proof (buildGrid_raise _ _ _ _ _ Hrows G2 G) as P.
  change (Z.to_nat (2 * 10)) with 20 in P.
  set (g := _ ++ _) in *. clearbody g.
  assert (N : forall k, k < 20 -> nth_error g k = nth_error (squeezeRow ++ repeat emptyCell 6) k).
  { intros k Hk. rewrite P, nth_error_firstn.
    destruct (Nat.ltb_spec k 20); [reflexivity | lia]. }
  split; [rewrite N by lia; reflexivity|].
  split; [rewrite N by lia; reflexivity|].
  assert (F : firstn 14 (firstn 20 g) = firstn 14 g).
  { rewrite firstn_firstn. reflexivity. }
  rewrite <- F, <- P. reflexivity.
Qed.

Lemma squeeze_example_witness :
  (2 <= 5)%Z /\
  exists g,
    GridNotebook.buildGrid (str "123456789.rest") 5 = Some g
    /\ nth_error g 9 = Some (mkCell (str "9") (Some (str ".")))
    /\ nth_error g 10 = Some (plainCell 114)
    /\ firstn 14 g = squeezeRow.
Proof. split; [lia | apply (squeeze_example 5); lia]. Defined.



(** * The normalizer *)

(** The two replacements, match by match: a code unit of the class takes
    the white space after it away, and the scan resumes behind that run; a
    run of white space that ends at a code unit of the class goes, and the
    scan resumes at that code unit. *)
Lemma dropSpaceAfter_in_run (cls : list N) (s : jsstring) :
  dropSpaceAfter cls true s = dropSpaceAfter cls false (stripWs s).
Proof.
  induction s as [|c r IH]; [reflexivity|].
  cbn [dropSpaceAfter stripWs andb]. destruct (isWs c) eqn:W; [exact IH|].
  cbn [dropSpaceAfter andb]. reflexivity.
Qed.

Lemma dropSpaceAfter_match (cls : list N) (c : N) (r : jsstring) :
  dropSpaceAfter cls false (c :: r)
  = c :: dropSpaceAfter cls false (if member cls c then stripWs r else r).
Proof.
  cbn [dropSpaceAfter andb]. destruct (member cls c); [|reflexivity].
  now rewrite dropSpaceAfter_in_run.
Qed.

Lemma afterSpaces_stripWs (s : jsstring) : afterSpaces s = hd_error (stripWs s).
Proof.
  induction s as [|c r IH]; [reflexivity|].
  cbn [afterSpaces stripWs]. destruct (isWs c); [exact IH | reflexivity].
Qed.

Lemma dropSpaceBefore_match (cls : list N) (s : jsstring) :
  includes cls (afterSpaces s) = true ->
  dropSpaceBefore cls s = dropSpaceBefore cls (stripWs s).
Proof.
  induction s as [|c r IH]; [reflexivity|].
  cbn [afterSpaces stripWs dropSpaceBefore]. destruct (isWs c) eqn:W.
  - intros H. rewrite H. cbn [andb]. exact (IH H).
  - intros _. cbn [dropSpaceBefore andb]. rewrite W. reflexivity.
Qed.

Lemma dropSpaceBefore_no_match (cls : list N) (c : N) (r : jsstring) :
  isWs c && includes cls (afterSpaces r) = false ->
  dropSpaceBefore cls (c :: r) = c :: dropSpaceBefore cls r.
Proof. intros H. cbn [dropSpaceBefore]. now rewrite H. Qed.

Lemma replaceNewlines_fixed (s : jsstring) :
  member s NEWLINE = false -> replaceNewlines s = s.
Proof.
  unfold member, includes, replaceNewlines.
  induction s as [|c r IH]; cbn [existsb map]; [reflexivity|].
  rewrite orb_false_iff, N.eqb_sym. intros [E H]. rewrite E, IH by exact H. reflexivity.
Qed.

Lemma dropSpaceAfter_fixed (cls : list N) (s : jsstring) :
  noSpaceAfter cls s = true ->
  forall inRun, (inRun = true -> startsWithWs s = false) ->
  dropSpaceAfter cls inRun s = s.
Proof.
  induction s as [|c r IH]; cbn [noSpaceAfter dropSpaceAfter]; [reflexivity|].
  rewrite andb_true_iff, negb_true_iff, andb_false_iff. intros [Hc Hr] inRun Hrun.
  assert (E : inRun && isWs c = false).
  { destruct inRun; [|reflexivity]. cbn. now apply Hrun. }
  rewrite E. f_equal. apply IH; [exact Hr|].
  intros M. destruct Hc as [Hc|Hc]; congruence.
Qed.

Lemma noSpaceBefore_run (cls : list N) (r : jsstring) :
  forall c, noSpaceBefore cls (c :: r) = true -> isWs c = true ->
  includes cls (afterSpaces r) = false.
Proof.
  induction r as [|d r IH]; intros c H W; [reflexivity|].
  change (noSpaceBefore cls (c :: d :: r))
    with (negb (isWs c && includes cls (Some d)) && noSpaceBefore cls (d :: r)) in H.
  rewrite andb_true_iff, negb_true_iff, W in H. destruct H as [Hd Hr].
  cbn [andb] in Hd. cbn [afterSpaces].
  destruct (isWs d) eqn:Wd; [|exact Hd].
  apply (IH d); [|exact Wd]. exact Hr.
Qed.

Lemma dropSpaceBefore_fixed (cls : list N) (s : jsstring) :
  noSpaceBefore cls s = true -> dropSpaceBefore cls s = s.
Proof.
  induction s as [|c r IH]; intros H; [reflexivity|].
  cbn [dropSpaceBefore].
  assert (E : isWs c && includes cls (afterSpaces r) = false).
  { destruct (isWs c) eqn:W; [|reflexivity]. cbn. now apply noSpaceBefore_run with c. }
  rewrite E. f_equal. apply IH.
  cbn [noSpaceBefore] in H. apply andb_true_iff in H. apply H.
Qed.

Lemma replaced_fixed (s : jsstring) : normalized s = true -> replaced s = s.
Proof.
  unfold normalized, replaced. rewrite !andb_true_iff, negb_true_iff.
  intros [[[Hn Hp] Ho] Hc].
  rewrite (replaceNewlines_fixed _ Hn).
  rewrite (dropSpaceAfter_fixed _ _ Hp) by discriminate.
  rewrite (dropSpaceAfter_fixed _ _ Ho) by discriminate.
  now apply dropSpaceBefore_fixed.
Qed.

(** C5, as the code has it.  On text that is already normalized (no line
    break, no white space after . , ! ? or after an opening quotation mark,
    none before a closing quotation mark, one leading space) the three
    replacements change nothing; the normalizer then prepends its space as
    it always does, so its result is the text with one more leading space. *)
Theorem normalize_already_normalized (t : jsstring) :
  alreadyNormalized t = true ->
  replaced t = t /\ cleanText t = SPACE :: t.
Proof.
  unfold alreadyNormalized. rewrite andb_true_iff. intros [H _].
  unfold cleanText. rewrite (replaced_fixed _ H). split; reflexivity.
Qed.

Lemma normalize_already_normalized_witness :
  alreadyNormalized (str " a.b") = true
  /\ replaced (str " a.b") = str " a.b"
  /\ cleanText (str " a.b") = SPACE :: str " a.b".
Proof.
  split; [reflexivity|].
  apply (normalize_already_normalized (str " a.b")). reflexivity.
Defined.

(** C5 as stated fails: normalizing the normalized text [" a"] gives
    ["  a"], with a second leading space. *)
Lemma normalize_not_idempotent :
  alreadyNormalized (str " a") = true
  /\ cleanText (str " a") = str "  a"
  /\ cleanText (str " a") <> str " a"
  /\ cleanText (cleanText (str "a")) <> cleanText (str "a").
Proof. repeat split; discriminate. Qed.

(** ** The normalizer on a run without white space *)

Lemma nonWs_not_newline (c : N) : nonWs c -> N.eqb c NEWLINE = false.
Proof.
  unfold nonWs. intros H. destruct (N.eqb_spec c NEWLINE) as [->|]; [|reflexivity].
  discriminate H.
Qed.

Lemma replaceNewlines_run (pre l : jsstring) :
  Forall nonWs pre -> replaceNewlines (pre ++ l) = pre ++ replaceNewlines l.
Proof.
  unfold replaceNewlines. induction 1 as [|c pre Hc _ IH]; [reflexivity|].
  cbn [app map]. rewrite (nonWs_not_newline _ Hc), IH. reflexivity.
Qed.

Lemma dropSpaceAfter_run (cls : list N) (pre l : jsstring) :
  Forall nonWs pre -> pre <> [] ->
  forall inRun,
    dropSpaceAfter cls inRun (pre ++ l)
    = pre ++ dropSpaceAfter cls (member cls (last pre SPACE)) l.
Proof.
  induction 1 as [|c pre Hc Hpre IH]; [congruence|]. intros _ inRun.
  cbn [app dropSpaceAfter]. rewrite Hc, andb_false_r. f_equal.
  destruct pre as [|c' pre]; [reflexivity|].
  rewrite IH by discriminate. reflexivity.
Qed.

Lemma dropSpaceBefore_run (cls : list N) (pre l : jsstring) :
  Forall nonWs pre -> dropSpaceBefore cls (pre ++ l) = pre ++ dropSpaceBefore cls l.
Proof.
  induction 1 as [|c pre Hc _ IH]; [reflexivity|].
  cbn [app dropSpaceBefore]. rewrite Hc, IH. reflexivity.
Qed.

(** The normalizer keeps a space that stands between a run without white
    space (not ending in punctuation or an opening quotation mark) and a
    code unit that is neither white space nor a closing quotation mark. *)
Lemma cleanText_keeps_space (pre : jsstring) (c : N) (rest : jsstring) :
  Forall nonWs pre -> pre <> [] ->
  member (PUNCTUATION ++ OPENING) (last pre SPACE) = false ->
  nonWs c -> member CLOSING c = false ->
  exists rest', cleanText (pre ++ SPACE :: c :: rest) = SPACE :: pre ++ SPACE :: c :: rest'.
Proof.
  intros Hpre Hne Hlast Hc Hclose.
  unfold member, includes in Hlast. rewrite existsb_app, orb_false_iff in Hlast.
  destruct Hlast as [Hp Ho].
  unfold cleanText, replaced.
  rewrite (replaceNewlines_run _ _ Hpre).
  change (replaceNewlines (SPACE :: c :: rest))
    with (SPACE :: (if N.eqb c NEWLINE then SPACE else c) :: replaceNewlines rest).
  rewrite (nonWs_not_newline _ Hc).
  rewrite (dropSpaceAfter_run _ _ _ Hpre Hne).
  unfold member at 1, includes. rewrite Hp.
  cbn [dropSpaceAfter andb]. change (member PUNCTUATION SPACE) with false. cbn [andb].
  rewrite (dropSpaceAfter_run _ _ _ Hpre Hne).
  unfold member at 1, includes. rewrite Ho.
  cbn [dropSpaceAfter andb]. change (member OPENING SPACE) with false. cbn [andb].
  rewrite (dropSpaceBefore_run _ _ _ Hpre).
  cbn [dropSpaceBefore afterSpaces]. rewrite Hc. cbn [includes andb].
  unfold member, includes in Hclose. rewrite Hclose, andb_false_r.
  eexists. reflexivity.
Qed.

(** ** The first row *)

Lemma firstn_snoc (A : Type) (l : list A) (j : nat) (x : A) :
  nth_error l j = Some x -> firstn (S j) l = firstn j l ++ [x].
Proof.
  revert j; induction l as [|a l IH]; intros [|j] H; try discriminate.
  - cbn in H. injection H as ->. reflexivity.
  - cbn [firstn app]. f_equal. apply IH. exact H.
Qed.

Section FirstRow.
Import GridNotebook.
Variable clean : jsstring.
Variable maxChars : Z.

Local Abbreviation reach := (reachable (cond clean maxChars) (body clean) init).

(** From a state on the way, the walk only appends. *)
Lemma reach_prefix (st final : State) :
  reach st -> walk clean maxChars = Some final ->
  exists ext, displayCells final = displayCells st ++ ext.
Proof.
  intros R W. destruct (while_from_reachable _ _ _ _ _ _ R _ W) as [f Hf].
  revert Hf. apply while_preserves with
    (R := fun s r : State => exists ext, displayCells r = displayCells s ++ ext).
  - intros s. exists []. now rewrite app_nil_r.
  - intros s r _ [ext E]. destruct (body_extends clean s) as [e1 E1].
    exists (e1 ++ ext). now rewrite E, E1, app_assoc.
Qed.

(** Unless the eleventh code unit is forbidden, the first row holds the
    first ten code units, one to a cell. *)
Lemma first_row (j : nat) :
  j <= 10 -> j <= length clean -> (Z.of_nat j <= maxChars)%Z ->
  includes FORBIDDEN_START_CHARS (charAt clean 10) = false ->
  reach (mkState j (map plainCell (firstn j clean))).
Proof.
  intros Hj Hlen Hcap Hnext. induction j as [|j IH]; [apply reach_start|].
  specialize (IH ltac:(lia) ltac:(lia) ltac:(lia)).
  assert (Hn : length (map plainCell (firstn j clean)) = j).
  { rewrite length_map, length_firstn. lia. }
  assert (C : cond clean maxChars (mkState j (map plainCell (firstn j clean))) = true).
  { apply cond_true. cbn [textIndex displayCells]. rewrite Hn. lia. }
  destruct (body_cases clean (mkState j (map plainCell (firstn j clean))))
    as (c & Hc & Hcase); [cbn [textIndex]; lia|].
  cbv zeta in Hcase. cbn [textIndex displayCells] in Hc, Hcase. rewrite Hn in Hcase.
  assert (E : body clean (mkState j (map plainCell (firstn j clean)))
              = mkState (S j) (map plainCell (firstn (S j) clean))).
  { destruct Hcase as [(_ & ? & ? & _)|[(_ & Hm & d & Hd & F & _)|(_ & _ & ->)]].
    - exfalso. lia.
    - exfalso. assert (j = 9) by lia. subst j. cbn [Nat.add] in Hd.
      rewrite Hd in Hnext. unfold member in F. congruence.
    - rewrite (firstn_snoc _ _ _ _ Hc), map_app.
      f_equal. lia. }
  rewrite <- E. apply reach_iter; assumption.
Qed.
End FirstRow.

(** C6, as the code has it.  The reserved leading space takes the first
    cell, so it is a text of [GRID_COLS - 1] code units without white space
    (not ending in punctuation or an opening quotation mark, after which the
    normalizer removes the space), then one space, then more text (not
    starting with white space or a closing quotation mark), whose space falls
    on the start of the second row: the space is dropped and the code unit
    after it occupies the first cell of the second row. *)
Theorem row_start_space_dropped (pre : jsstring) (c : N) (rest : jsstring) (rows : Z) :
  length pre = GRID_COLS - 1 ->
  Forall nonWs pre ->
  member (PUNCTUATION ++ OPENING) (last pre SPACE) = false ->
  nonWs c -> member CLOSING c = false ->
  (2 <= rows)%Z ->
  exists g,
    GridNotebook.buildGrid (pre ++ SPACE :: c :: rest) rows = Some g
    /\ firstn 11 g = plainCell SPACE :: map plainCell pre ++ [plainCell c]
    /\ nth_error g 10 = Some (plainCell c).
Proof.
  intros Hlen Hpre Hlast Hc Hclose Hrows. change (GRID_COLS - 1) with 9 in Hlen.
  destruct (cleanText_keeps_space pre c rest Hpre) as [rest' Hclean]; try assumption.
  { intros ->. discriminate Hlen. }
  destruct (buildGrid_shape (pre ++ SPACE :: c :: rest) rows) as (st & W & _ & _ & G).
  rewrite Hclean in W. clear Hclean.
  assert (Hfirst : exists ext,
             GridNotebook.displayCells st
             = (plainCell SPACE :: map plainCell pre ++ [plainCell c]) ++ ext).
  { destruct pre as [|p1 [|p2 [|p3 [|p4 [|p5 [|p6 [|p7 [|p8 [|p9 [|]]]]]]]]]];
      try discriminate Hlen. clear Hlen Hpre Hlast.
    set (clean := SPACE :: [p1; p2; p3; p4; p5; p6; p7; p8; p9] ++ SPACE :: c :: rest') in *.
    set (M := GridNotebook.maxCharsOf rows) in *.
    assert (HM : (20 <= M)%Z) by (unfold M; rewrite maxCharsOf_10; lia).
    pose proof (first_row clean M 10) as R10.
    specialize (R10 ltac:(lia) ltac:(cbn; lia) ltac:(lia) eq_refl).
    (* the space at the start of the second row is skipped *)
    assert (R11 : reachable (GridNotebook.cond clean M) (GridNotebook.body clean)
                    GridNotebook.init
                    (GridNotebook.mkState 11 (map plainCell (firstn 10 clean)))).
    { change (GridNotebook.mkState 11 (map plainCell (firstn 10 clean)))
        with (GridNotebook.body clean
                (GridNotebook.mkState 10 (map plainCell (firstn 10 clean)))).
      apply reach_iter; [exact R10|]. apply cond_true. cbn. lia. }
    (* the code unit after it opens the second row *)
    assert (R12 : reachable (GridNotebook.cond clean M) (GridNotebook.body clean)
                    GridNotebook.init
                    (GridNotebook.mkState 12
                       (map plainCell (firstn 10 clean) ++ [plainCell c]))).
    { destruct (body_cases clean (GridNotebook.mkState 11 (map plainCell (firstn 10 clean))))
        as (c1 & Hc1 & Hcase); [cbn; lia|].
      cbn in Hc1. injection Hc1 as <-. cbv zeta in Hcase.
      destruct Hcase as [(-> & _)|[(_ & Hm & _)|(_ & _ & E)]].
      - discriminate Hc.
      - discriminate Hm.
      - change (GridNotebook.mkState 12 (map plainCell (firstn 10 clean) ++ [plainCell c]))
          with (GridNotebook.mkState (11 + 1)
                  (map plainCell (firstn 10 clean) ++ [mkCell [c] None])).
        cbn [GridNotebook.textIndex GridNotebook.displayCells] in E. rewrite <- E.
        apply reach_iter; [exact R11|]. apply cond_true. cbn. lia. }
    destruct (reach_prefix _ _ _ _ R12 W) as [ext E].
    exists ext. exact E. }
  destruct Hfirst as [ext E]. rewrite E in G.
  assert (L : length (plainCell SPACE :: map plainCell pre ++ [plainCell c]) = 11).
  { cbn [length]. rewrite length_app, length_map, Hlen. reflexivity. }
  assert (N10 : nth_error (plainCell SPACE :: map plainCell pre ++ [plainCell c]) 10
                = Some (plainCell c)).
  { change 10 with (S 9). rewrite nth_error_cons_succ.
    rewrite nth_error_app2 by (rewrite length_map; lia).
    rewrite length_map, Hlen. reflexivity. }
  set (P := plainCell SPACE :: map plainCell pre ++ [plainCell c]) in *.
  eexists. split; [exact G|].
  rewrite <- app_assoc. split.
  - rewrite firstn_app, L, Nat.sub_diag, firstn_O, app_nil_r.
    apply firstn_all2. lia.
  - rewrite nth_error_app1 by lia. exact N10.
Qed.

Lemma row_start_space_dropped_witness :
  length (str "012345678") = GRID_COLS - 1
  /\ Forall nonWs (str "012345678")
  /\ member (PUNCTUATION ++ OPENING) (last (str "012345678") SPACE) = false
  /\ nonWs 97 /\ member CLOSING 97 = false
  /\ (2 <= 5)%Z
  /\ exists g,
      GridNotebook.buildGrid (str "012345678" ++ SPACE :: 97%N :: str "bc") 5 = Some g
      /\ firstn 11 g
         = plainCell SPACE :: map plainCell (str "012345678") ++ [plainCell 97]
      /\ nth_error g 10 = Some (plainCell 97).
Proof.
  assert (F : Forall nonWs (str "012345678")) by (repeat constructor).
  split; [reflexivity|]. split; [exact F|]. split; [reflexivity|].
  split; [reflexivity|]. split; [reflexivity|]. split; [lia|].
  apply (row_start_space_dropped (str "012345678") 97 (str "bc") 5);
    [reflexivity | exact F | reflexivity | reflexivity | reflexivity | lia].
Defined.

(** C6 as stated fails: after ten code units without white space the space
    is not at a row start.  The tenth code unit opens the second row and the
    space takes the cell after it. *)
Lemma row_start_space_kept :
  exists g,
    GridNotebook.buildGrid (str "0123456789 abc") 5 = Some g
    /\ nth_error g 10 = Some (plainCell 57)
    /\ nth_error g 11 = Some (plainCell SPACE)
    /\ nth_error g 12 = Some (plainCell 97).
Proof.
  exists (map plainCell (str " 0123456789 abc") ++ repeat emptyCell 35).
  split; [vm_compute; reflexivity|]. repeat split.
Qed.

(** ** Where the cells are read *)

Section Origins.
Import GridNotebook.
Variable clean : jsstring.
Variable maxChars : Z.

Local Abbreviation reach := (reachable (cond clean maxChars) (body clean) init).
Local Abbreviation from := (reachable (cond clean maxChars) (body clean)).







End Origins.




(** * Further properties of the normalizer *)

Lemma punctuation_not_opening (c : N) :
  member PUNCTUATION c = true -> member OPENING c = false.
Proof.
  unfold member, includes, PUNCTUATION. cbn [existsb]. rewrite !orb_true_iff, !N.eqb_eq.
  intros H. destruct H as [H|[H|[H|[H|H]]]]; try discriminate H; subst c; reflexivity.
Qed.

Lemma closing_not_ws (c : option N) :
  includes CLOSING c = true -> exists q, c = Some q /\ isWs q = false.
Proof.
  destruct c as [q|]; [|discriminate]. intros H. exists q. split; [reflexivity|].
  unfold includes, CLOSING in H. cbn [existsb] in H.
  rewrite !orb_true_iff, !N.eqb_eq in H.
  destruct H as [H|[H|H]]; try discriminate H; subst q; reflexivity.
Qed.

Lemma In_dropSpaceAfter (cls : list N) (x : N) (s : jsstring) :
  forall inRun, In x (dropSpaceAfter cls inRun s) -> In x s.
Proof.
  induction s as [|c r IH]; intros inRun H; [exact H|].
  cbn [dropSpaceAfter] in H. destruct (inRun && isWs c).
  - right. exact (IH _ H).
  - destruct H as [->|H]; [now left | right; exact (IH _ H)].
Qed.

Lemma In_dropSpaceBefore (cls : list N) (x : N) (s : jsstring) :
  In x (dropSpaceBefore cls s) -> In x s.
Proof.
  induction s as [|c r IH]; intros H; [exact H|].
  cbn [dropSpaceBefore] in H. destruct (isWs c && includes cls (afterSpaces r)).
  - right. exact (IH H).
  - destruct H as [->|H]; [now left | right; exact (IH H)].
Qed.

Lemma replaceNewlines_clean (s : jsstring) : ~ In NEWLINE (replaceNewlines s).
Proof.
  unfold replaceNewlines. rewrite in_map_iff. intros (c & E & _).
  destruct (N.eqb c NEWLINE) eqn:Q; [discriminate E|].
  apply N.eqb_neq in Q. congruence.
Qed.

Lemma member_false (s : jsstring) (x : N) : ~ In x s -> member s x = false.
Proof.
  intros H. unfold member, includes. destruct (existsb (N.eqb x) s) eqn:E; [|reflexivity].
  apply existsb_exists in E. destruct E as (y & Hy & E). apply N.eqb_eq in E.
  subst y. contradiction.
Qed.

(** The head of the result is the head of the text when the scan is not
    inside a run. *)
Lemma startsWithWs_dropSpaceAfter (cls : list N) (s : jsstring) :
  startsWithWs (dropSpaceAfter cls false s) = startsWithWs s.
Proof. destruct s; reflexivity. Qed.

Lemma dropSpaceAfter_true_head (cls : list N) (s : jsstring) :
  startsWithWs (dropSpaceAfter cls true s) = false.
Proof.
  induction s as [|c r IH]; [reflexivity|].
  cbn [dropSpaceAfter andb]. destruct (isWs c) eqn:W; [exact IH|].
  cbn [startsWithWs]. exact W.
Qed.

(** After the replacement no white space follows a code unit of the class. *)
Lemma dropSpaceAfter_sound (cls : list N) (s : jsstring) :
  forall inRun, noSpaceAfter cls (dropSpaceAfter cls inRun s) = true.
Proof.
  induction s as [|c r IH]; intros inRun; [reflexivity|].
  cbn [dropSpaceAfter]. destruct (inRun && isWs c); [apply IH|].
  cbn [noSpaceAfter]. rewrite IH, andb_true_r.
  destruct (member cls c); [|reflexivity].
  now rewrite dropSpaceAfter_true_head.
Qed.

(** Removing the white space after another, disjoint class keeps it so. *)
Lemma dropSpaceAfter_keeps (cls cls' : list N) (s : jsstring) :
  (forall c, member cls c = true -> member cls' c = false) ->
  noSpaceAfter cls s = true ->
  forall inRun, noSpaceAfter cls (dropSpaceAfter cls' inRun s) = true.
Proof.
  intros Hdis. induction s as [|c r IH]; intros H inRun; [reflexivity|].
  cbn [noSpaceAfter] in H. apply andb_true_iff in H. destruct H as [Hc Hr].
  cbn [dropSpaceAfter]. destruct (inRun && isWs c); [now apply IH|].
  cbn [noSpaceAfter]. rewrite (IH Hr), andb_true_r.
  destruct (member cls c) eqn:M; [|reflexivity].
  rewrite (Hdis _ M), startsWithWs_dropSpaceAfter.
  cbn [andb] in Hc. cbn [andb]. exact Hc.
Qed.

Lemma startsWithWs_dropSpaceBefore (cls : list N) (s : jsstring) :
  startsWithWs s = false -> startsWithWs (dropSpaceBefore cls s) = false.
Proof.
  destruct s as [|c r]; [reflexivity|]. cbn [startsWithWs dropSpaceBefore].
  intros W. rewrite W. cbn [andb startsWithWs]. exact W.
Qed.

Lemma dropSpaceBefore_keeps (cls cls' : list N) (s : jsstring) :
  noSpaceAfter cls s = true -> noSpaceAfter cls (dropSpaceBefore cls' s) = true.
Proof.
  induction s as [|c r IH]; intros H; [reflexivity|].
  cbn [noSpaceAfter] in H. apply andb_true_iff in H. destruct H as [Hc Hr].
  cbn [dropSpaceBefore]. destruct (isWs c && includes cls' (afterSpaces r)); [now apply IH|].
  cbn [noSpaceAfter]. rewrite (IH Hr), andb_true_r.
  destruct (member cls c); [|reflexivity].
  cbn [andb] in Hc. apply negb_true_iff in Hc.
  cbn [andb]. now rewrite startsWithWs_dropSpaceBefore.
Qed.

(** The head of the result: the code unit that ends the leading run when
    that run is removed, the head of the text otherwise. *)
Lemma hd_dropSpaceBefore (cls : list N) (s : jsstring) :
  hd_error (dropSpaceBefore cls s)
  = if includes cls (afterSpaces s) then afterSpaces s else hd_error s.
Proof.
  induction s as [|c r IH]; [reflexivity|].
  cbn [dropSpaceBefore afterSpaces]. destruct (isWs c) eqn:W; cbn [andb].
  - destruct (includes cls (afterSpaces r)); [exact IH | reflexivity].
  - cbn [hd_error]. now destruct (includes cls (Some c)).
Qed.

Lemma dropSpaceBefore_sound (s : jsstring) :
  noSpaceBefore CLOSING (dropSpaceBefore CLOSING s) = true.
Proof.
  induction s as [|c r IH]; [reflexivity|].
  cbn [dropSpaceBefore].
  destruct (isWs c && includes CLOSING (afterSpaces r)) eqn:E; [exact IH|].
  cbn [noSpaceBefore]. rewrite IH, andb_true_r. apply negb_true_iff.
  destruct (isWs c) eqn:W; [|reflexivity]. cbn [andb] in E |- *.
  rewrite hd_dropSpaceBefore, E.
  destruct (includes CLOSING (hd_error r)) eqn:F; [|reflexivity].
  destruct (closing_not_ws _ F) as (q & Hq & Wq).
  destruct r as [|d r']; [discriminate Hq|]. cbn [hd_error] in Hq, F.
  injection Hq as ->. cbn [afterSpaces] in E. rewrite Wq in E. congruence.
Qed.

Lemma replaced_is_normalized (text : jsstring) : normalized (replaced text) = true.
Proof.
  unfold normalized, replaced. rewrite !andb_true_iff. repeat split.
  - apply negb_true_iff, member_false. intros H.
    apply In_dropSpaceBefore, In_dropSpaceAfter, In_dropSpaceAfter in H.
    exact (replaceNewlines_clean _ H).
  - apply dropSpaceBefore_keeps.
    apply dropSpaceAfter_keeps; [exact punctuation_not_opening|].
    apply dropSpaceAfter_sound.
  - apply dropSpaceBefore_keeps. apply dropSpaceAfter_sound.
  - apply dropSpaceBefore_sound.
Qed.

(** X1. The normalized text holds no line feed, no white space after
    . , ! ? and none after an opening quotation mark; before its leading
    space, it holds no white space in front of a closing quotation mark. *)
Theorem cleanText_is_tight (text : jsstring) :
  ~ In NEWLINE (cleanText text)
  /\ noSpaceAfter PUNCTUATION (cleanText text) = true
  /\ noSpaceAfter OPENING (cleanText text) = true
  /\ noSpaceBefore CLOSING (replaced text) = true.
Proof.
  pose proof (replaced_is_normalized text) as H. unfold normalized in H.
  rewrite !andb_true_iff, negb_true_iff in H. destruct H as [[[Hn Hp] Ho] Hc].
  unfold cleanText. split; [|split; [|split]].
  - intros [E|H]; [discriminate E|].
    unfold member, includes in Hn.
    assert (existsb (N.eqb NEWLINE) (replaced text) = true); [|congruence].
    apply existsb_exists. exists NEWLINE. split; [exact H | apply N.eqb_refl].
  - cbn [noSpaceAfter]. rewrite Hp. reflexivity.
  - cbn [noSpaceAfter]. rewrite Ho. reflexivity.
  - exact Hc.
Qed.

(** X2. The three replacements are idempotent: applied to their own
    result they change nothing, so normalizing a normalized text only adds
    a leading space. *)
Theorem replaced_idempotent (text : jsstring) :
  replaced (replaced text) = replaced text
  /\ cleanText (replaced text) = cleanText text.
Proof.
  assert (E : replaced (replaced text) = replaced text)
    by (apply replaced_fixed, replaced_is_normalized).
  split; [exact E|]. unfold cleanText. now rewrite E.
Qed.

Lemma visible_dropSpaceAfter (cls : list N) (s : jsstring) :
  forall inRun,
    visible (dropSpaceAfter cls inRun s) = visible s
    /\ length (dropSpaceAfter cls inRun s) <= length s.
Proof.
  unfold visible. induction s as [|c r IH]; intros inRun; [split; reflexivity|].
  cbn [dropSpaceAfter]. destruct (isWs c) eqn:W.
  - destruct inRun; cbn [andb filter length]; rewrite W; cbn [negb];
      destruct (IH true) as [E L]; destruct (IH (member cls c)) as [E' L'];
      (split; [assumption|lia]).
  - rewrite andb_false_r. cbn [filter length]. rewrite W. cbn [negb].
    destruct (IH (member cls c)) as [E L]. split; [now rewrite E | lia].
Qed.

Lemma visible_dropSpaceBefore (cls : list N) (s : jsstring) :
  visible (dropSpaceBefore cls s) = visible s
  /\ length (dropSpaceBefore cls s) <= length s.
Proof.
  unfold visible. induction s as [|c r [E L]]; [split; reflexivity|].
  cbn [dropSpaceBefore]. destruct (isWs c) eqn:W; cbn [andb].
  - destruct (includes cls (afterSpaces r)); cbn [filter length]; rewrite W; cbn [negb];
      (split; [assumption|lia]).
  - cbn [filter length]. rewrite W. cbn [negb]. split; [now rewrite E | lia].
Qed.

Lemma visible_replaceNewlines (s : jsstring) :
  visible (replaceNewlines s) = visible s.
Proof.
  unfold visible, replaceNewlines. induction s as [|c r IH]; [reflexivity|].
  cbn [map filter]. rewrite IH.
  destruct (N.eqb_spec c NEWLINE) as [->|]; reflexivity.
Qed.

Lemma cleanText_length (text : jsstring) :
  length (cleanText text) <= length text + 1.
Proof.
  unfold cleanText, replaced.
  destruct (visible_dropSpaceBefore CLOSING
              (dropSpaceAfter OPENING false
                 (dropSpaceAfter PUNCTUATION false (replaceNewlines text)))) as [_ L1].
  destruct (visible_dropSpaceAfter OPENING
              (dropSpaceAfter PUNCTUATION false (replaceNewlines text)) false) as [_ L2].
  destruct (visible_dropSpaceAfter PUNCTUATION (replaceNewlines text) false) as [_ L3].
  assert (L4 : length (replaceNewlines text) = length text) by apply length_map.
  cbn [length]. lia.
Qed.

(** X3. The normalizer removes and replaces white space only: the code
    units outside [\s] come out unchanged and in order, and the result is
    at most one code unit longer than the text. *)
Theorem cleanText_keeps_visible (text : jsstring) :
  visible (cleanText text) = visible text
  /\ length (cleanText text) <= length text + 1.
Proof.
  unfold cleanText, replaced.
  destruct (visible_dropSpaceBefore CLOSING
              (dropSpaceAfter OPENING false
                 (dropSpaceAfter PUNCTUATION false (replaceNewlines text)))) as [E1 L1].
  destruct (visible_dropSpaceAfter OPENING
              (dropSpaceAfter PUNCTUATION false (replaceNewlines text)) false) as [E2 L2].
  destruct (visible_dropSpaceAfter PUNCTUATION (replaceNewlines text) false) as [E3 L3].
  split.
  - change (visible (SPACE :: ?s)) with (visible s).
    now rewrite E1, E2, E3, visible_replaceNewlines.
  - assert (L4 : length (replaceNewlines text) = length text)
      by apply length_map.
    cbn [length]. lia.
Qed.

(** * Further properties of the grid *)

Lemma withoutSpaces_app (a b : jsstring) :
  withoutSpaces (a ++ b) = withoutSpaces a ++ withoutSpaces b.
Proof. apply filter_app. Qed.

Lemma glyphs_app (a b : list Cell) : glyphs (a ++ b) = glyphs a ++ glyphs b.
Proof. apply flat_map_app. Qed.

Lemma glyphs_padding (n : nat) : glyphs (repeat emptyCell n) = [].
Proof. induction n as [|n IH]; [reflexivity | exact IH]. Qed.

Section GridContents.
Import GridNotebook.
Variable clean : jsstring.
Variable maxChars : Z.

Local Abbreviation reach := (reachable (cond clean maxChars) (body clean) init).

(** The first iteration emits the first code unit into the first cell. *)
Lemma first_cell (c : N) (final : State) :
  charAt clean 0 = Some c -> (0 < maxChars)%Z ->
  walk clean maxChars = Some final ->
  exists ext, displayCells final = plainCell c :: ext.
Proof.
  intros Hc Hcap W.
  assert (Hlen : 0 < length clean) by (apply charAt_lt in Hc; exact Hc).
  assert (R : reach (mkState 1 [plainCell c])).
  { destruct (body_cases clean init Hlen) as (c' & Hc' & Hcase).
    cbn [init textIndex displayCells] in Hc', Hcase. cbv zeta in Hcase. cbn [length] in Hcase.
    rewrite Hc in Hc'. injection Hc' as <-.
    destruct Hcase as [(_ & ? & _)|[(_ & Hm & _)|(_ & _ & E)]]; [lia | discriminate Hm|].
    change (mkState 1 [plainCell c]) with (mkState (0 + 1) ([] ++ [mkCell [c] None])).
    rewrite <- E. apply reach_iter; [apply reach_start|].
    apply cond_true. cbn. lia. }
  destruct (reach_prefix _ _ _ _ R W) as [ext E]. exists ext. exact E.
Qed.

(** No space is emitted into the first cell of a later row. *)
Lemma reach_no_row_start_space (st : State) :
  reach st ->
  forall k cell, nth_error (displayCells st) k = Some cell ->
    0 < k -> k mod 10 = 0 -> char cell <> [SPACE].
Proof.
  induction 1 as [|st R IH C]; [intros [|k] cell H; discriminate|].
  apply cond_true in C. destruct C as [Ht Hm].
  destruct (body_cases clean st Ht) as (c & Hc & Hcase). cbv zeta in Hcase.
  destruct Hcase as [(_ & _ & _ & ->)|[(_ & E & d & _ & _ & ->)|(Hno & _ & ->)]];
    cbn [displayCells]; [exact IH| |];
    intros k cell H Hk0 Hk; apply nth_error_snoc in H;
    destruct H as [[_ H]|[-> ->]]; try (now apply (IH k cell)).
  - exfalso. lia.
  - cbn [char]. intros [= ->]. apply Hno. repeat split; assumption.
Qed.

(** What the cells show, spaces apart, is what the walk has read. *)
Lemma reach_glyphs_read (st : State) :
  reach st ->
  withoutSpaces (glyphs (displayCells st)) = withoutSpaces (firstn (textIndex st) clean).
Proof.
  induction 1 as [|st R IH C]; [reflexivity|].
  apply cond_true in C. destruct C as [Ht Hm].
  destruct (body_cases clean st Ht) as (c & Hc & Hcase). cbv zeta in Hcase.
  destruct Hcase as [(-> & _ & _ & ->)|[(_ & _ & d & Hd & _ & ->)|(_ & _ & ->)]];
    cbn [displayCells textIndex].
  - rewrite Nat.add_1_r, (firstn_snoc _ _ _ _ Hc), withoutSpaces_app, <- IH.
    cbn. now rewrite app_nil_r.
  - replace (textIndex st + 2) with (S (S (textIndex st))) by lia.
    rewrite Nat.add_1_r in Hd.
    rewrite (firstn_snoc _ _ _ _ Hd), (firstn_snoc _ _ _ _ Hc).
    rewrite glyphs_app, withoutSpaces_app, IH, <- app_assoc.
    rewrite (withoutSpaces_app (firstn (textIndex st) clean)). reflexivity.
  - rewrite Nat.add_1_r, (firstn_snoc _ _ _ _ Hc).
    rewrite glyphs_app, withoutSpaces_app, IH.
    rewrite (withoutSpaces_app (firstn (textIndex st) clean)). reflexivity.
Qed.
End GridContents.

(** When the counting walk counts nothing more, all that is left to read
    is spaces. *)
Lemma count_rest_spaces (clean : jsstring) (f : nat) :
  forall s r,
    while (App.cond clean) (App.body clean) f s = Some r ->
    App.cellCount s <= App.cellCount r
    /\ (App.cellCount s = App.cellCount r ->
        withoutSpaces (skipn (App.textIndex s) clean) = []).
Proof.
  induction f as [|f IH]; intros s r H; [discriminate|].
  cbn [while] in H. destruct (App.cond clean s) eqn:C.
  - destruct (IH _ _ H) as [Hle Hsp]. pose proof (count_grows clean s) as G.
    split; [lia|]. intros E.
    assert (E1 : App.cellCount (App.body clean s) = App.cellCount s) by lia.
    assert (E2 : App.cellCount (App.body clean s) = App.cellCount r) by lia.
    specialize (Hsp E2). clear IH H Hle G E E2.
    unfold App.cond in C. apply Nat.ltb_lt in C.
    destruct (charAt_some clean _ C) as [c Hc].
    unfold App.body in E1, Hsp. rewrite Hc in E1, Hsp.
    destruct (isSpace (Some c) && (0 <? App.cellCount s)
              && (App.cellCount s mod GRID_COLS =? 0)) eqn:Q.
    + cbn [App.textIndex] in Hsp.
      apply andb_true_iff in Q. destruct Q as [Q _].
      apply andb_true_iff in Q. destruct Q as [Q _].
      cbn [isSpace] in Q. apply N.eqb_eq in Q. subst c.
      unfold charAt in Hc.
      rewrite <- (firstn_skipn 1 (skipn (App.textIndex s) clean)).
      rewrite skipn_skipn, withoutSpaces_app, Nat.add_comm, Hsp, app_nil_r.
      destruct (skipn (App.textIndex s) clean) as [|x l] eqn:S.
      * reflexivity.
      * assert (X : nth_error (skipn (App.textIndex s) clean) 0 = Some SPACE).
        { rewrite nth_error_skipn, Nat.add_0_r. exact Hc. }
        rewrite S in X. cbn in X. injection X as ->. reflexivity.
    + exfalso. clear Hsp.
      destruct (((App.cellCount s + 1) mod GRID_COLS =? 0)
                && includes FORBIDDEN_START_CHARS (charAt clean (App.textIndex s + 1)));
        simpl in E1; lia.
  - injection H as <-. split; [lia|]. intros _.
    unfold App.cond in C. apply Nat.ltb_ge in C.
    now rewrite skipn_all2.
Qed.

(** X4. Whenever the grid has at least one row, its first cell is the
    blank cell of the reserved leading space, with no companion. *)
Theorem first_cell_blank (text : jsstring) (rows : Z) :
  (1 <= rows)%Z ->
  exists g, GridNotebook.buildGrid text rows = Some g
    /\ nth_error g 0 = Some (plainCell SPACE).
Proof.
  intros Hrows.
  destruct (buildGrid_shape text rows) as (st & W & _ & _ & G).
  destruct (first_cell (cleanText text) (GridNotebook.maxCharsOf rows) SPACE st)
    as [ext E]; [reflexivity | rewrite maxCharsOf_10; lia | exact W|].
  eexists. split; [exact G|]. rewrite E. reflexivity.
Qed.

Lemma first_cell_blank_witness :
  (1 <= 5)%Z /\
  exists g, GridNotebook.buildGrid (str "abc") 5 = Some g
    /\ nth_error g 0 = Some (plainCell SPACE).
Proof. split; [lia | apply (first_cell_blank (str "abc") 5); lia]. Defined.

(** X5. No row other than the first begins with a space: the primary of a
    cell at a positive multiple of ten is never the space. *)
Theorem no_row_starts_with_space (text : jsstring) (rows : Z) :
  exists g, GridNotebook.buildGrid text rows = Some g
    /\ forall k cell, nth_error g k = Some cell ->
         0 < k -> k mod GRID_COLS = 0 -> char cell <> [SPACE].
Proof.
  destruct (buildGrid_shape text rows) as (st & W & _ & _ & G).
  apply while_reachable in W. destruct W as [R _].
  eexists. split; [exact G|]. intros k cell H Hk0 Hk.
  destruct (Nat.lt_ge_cases k (length (GridNotebook.displayCells st))) as [L|L].
  - rewrite nth_error_app1 in H by exact L.
    exact (reach_no_row_start_space _ _ _ R k cell H Hk0 Hk).
  - rewrite nth_error_app2 in H by exact L.
    apply nth_error_In, repeat_spec in H. subst cell. discriminate.
Qed.

(** X6. Truncation keeps the order: whatever the number of rows, the code
    units the grid shows are, spaces apart, a prefix of the normalized
    text. *)
Theorem grid_shows_prefix (text : jsstring) (rows : Z) :
  exists g rest,
    GridNotebook.buildGrid text rows = Some g
    /\ withoutSpaces (cleanText text) = withoutSpaces (glyphs g) ++ rest.
Proof.
  destruct (buildGrid_shape text rows) as (st & W & _ & _ & G).
  apply while_reachable in W. destruct W as [R _].
  eexists. exists (withoutSpaces (skipn (GridNotebook.textIndex st) (cleanText text))).
  split; [exact G|].
  rewrite glyphs_app, glyphs_padding, app_nil_r, (reach_glyphs_read _ _ _ R).
  rewrite <- withoutSpaces_app, firstn_skipn. reflexivity.
Qed.

(** X7. With rows enough for the counted cells the grid loses nothing but
    spaces: the code units it shows are, spaces apart, those of the
    normalized text, in order. *)
Theorem grid_shows_all (text : jsstring) (rows : Z) (n : nat) :
  App.countCells text = Some n ->
  (Z.of_nat n <= rows * Z.of_nat GRID_COLS)%Z ->
  exists g,
    GridNotebook.buildGrid text rows = Some g
    /\ withoutSpaces (glyphs g) = withoutSpaces (cleanText text).
Proof.
  unfold GRID_COLS. change (Z.of_nat 10) with 10%Z. intros Hn Hrows.
  unfold App.countCells in Hn.
  destruct (App.walk (cleanText text)) as [final|] eqn:WA; [|discriminate].
  cbn [option_map] in Hn. injection Hn as Hn.
  destruct (buildGrid_shape text rows) as (st & W & _ & _ & G).
  pose proof (emitted_count _ _ _ _ WA W) as L. rewrite maxCharsOf_10, Hn in L.
  apply while_reachable in W. destruct W as [R _].
  eexists. split; [exact G|].
  rewrite glyphs_app, glyphs_padding, app_nil_r, (reach_glyphs_read _ _ _ R).
  destruct (while_from_reachable _ _ _ _ _ _ (counted_reachable _ _ _ R) _ WA) as [f Hf].
  destruct (count_rest_spaces _ _ _ _ Hf) as [_ Hsp].
  cbn [counted App.cellCount App.textIndex] in Hsp.
  rewrite <- (firstn_skipn (GridNotebook.textIndex st) (cleanText text)) at 2.
  rewrite withoutSpaces_app, Hsp, app_nil_r; [reflexivity | lia].
Qed.

Lemma grid_shows_all_witness :
  App.countCells (str "123456789. a") = Some 11
  /\ (Z.of_nat 11 <= 5 * Z.of_nat GRID_COLS)%Z
  /\ exists g,
      GridNotebook.buildGrid (str "123456789. a") 5 = Some g
      /\ withoutSpaces (glyphs g) = withoutSpaces (cleanText (str "123456789. a")).
Proof.
  split; [reflexivity|]. split; [cbn; lia|].
  apply (grid_shows_all (str "123456789. a") 5 11); [reflexivity | cbn; lia].
Defined.

(** X8. More rows never change what is already shown: the grid of [rows]
    rows is the first [rows * 10] cells of the grid of any larger number of
    rows. *)
Theorem grid_grows_with_rows (text : jsstring) (rows rows' : Z) :
  (rows <= rows')%Z ->
  exists g g',
    GridNotebook.buildGrid text rows = Some g
    /\ GridNotebook.buildGrid text rows' = Some g'
    /\ g = firstn (Z.to_nat (rows * Z.of_nat GRID_COLS)) g'.
Proof.
  intros Hle.
  destruct (buildGrid_shape text rows) as (st & _ & _ & _ & G).
  destruct (buildGrid_shape text rows') as (st' & _ & _ & _ & G').
  eexists. eexists. split; [exact G|]. split; [exact G'|].
  exact (buildGrid_raise _ _ _ _ _ Hle G G').
Qed.

Lemma grid_grows_with_rows_witness :
  (5 <= 8)%Z /\
  exists g g',
    GridNotebook.buildGrid (str "abc") 5 = Some g
    /\ GridNotebook.buildGrid (str "abc") 8 = Some g'
    /\ g = firstn (Z.to_nat (5 * Z.of_nat GRID_COLS)) g'.
Proof. split; [lia | apply (grid_grows_with_rows (str "abc") 5 8); lia]. Defined.

(** X9. [calculateRequiredRows] is exact: with at least five rows, the
    grid holds every cell the counting walk counted if and only if it has
    at least [calculateRequiredRows] rows. *)
Theorem required_rows_exact (text : jsstring) (r rows : Z) (n : nat) (cells : list Cell) :
  App.calculateRequiredRows text = Some r ->
  App.countCells text = Some n ->
  (5 <= rows)%Z ->
  emitted text rows = Some cells ->
  (length cells = n <-> (r <= rows)%Z).
Proof.
  unfold App.calculateRequiredRows. intros Hr Hn Hrows He. rewrite Hn in Hr.
  cbn [option_map] in Hr. injection Hr as <-.
  unfold App.countCells in Hn.
  destruct (App.walk (cleanText text)) as [final|] eqn:WA; [|discriminate].
  cbn [option_map] in Hn. injection Hn as Hn.
  unfold emitted in He.
  destruct (GridNotebook.walk (cleanText text) (GridNotebook.maxCharsOf rows))
    as [st|] eqn:W; [|discriminate].
  cbn [option_map] in He. injection He as <-.
  rewrite (emitted_count _ _ _ _ WA W), maxCharsOf_10, Hn.
  change (fst (Nat.divmod (n + 9) 9 0 9)) with ((n + 9) / 10).
  destruct (Nat.min_spec n (Z.to_nat (rows * 10))) as [[H1 H2]|[H1 H2]];
    rewrite H2; split; intros; lia.
Qed.

Lemma required_rows_exact_witness :
  App.calculateRequiredRows (str "abc") = Some 5%Z
  /\ App.countCells (str "abc") = Some 4
  /\ (5 <= 6)%Z
  /\ emitted (str "abc") 6 = Some (map plainCell (str " abc"))
  /\ (length (map plainCell (str " abc")) = 4 <-> (5 <= 6)%Z).
Proof.
  split; [reflexivity|]. split; [reflexivity|]. split; [lia|]. split; [reflexivity|].
  apply (required_rows_exact (str "abc") 5 6 4 (map plainCell (str " abc")));
    [reflexivity | reflexivity | lia | reflexivity].
Defined.

(** X10. The counting walk counts at least the indentation cell and at
    most one cell for each code unit of the text and one for the leading
    space; so no text needs more than [max(5, ceil((length + 1) / 10))]
    rows. *)
Theorem count_bounds (text : jsstring) :
  exists n r,
    App.countCells text = Some n
    /\ App.calculateRequiredRows text = Some r
    /\ 1 <= n <= length text + 1
    /\ (5 <= r <= Z.max 5 (Z.of_nat (App.ceilDiv (length text + 1) GRID_COLS)))%Z.
Proof.
  destruct (count_walk_total (cleanText text)) as [final WA].
  exists (App.cellCount final). eexists.
  unfold App.calculateRequiredRows, App.countCells. rewrite WA. cbn [option_map].
  split; [reflexivity|]. split; [reflexivity|].
  set (M := Z.of_nat (length (cleanText text) + 1)).
  destruct (walk_total (cleanText text) M) as [st W].
  pose proof (emitted_count _ _ _ _ WA W) as L.
  destruct (first_cell (cleanText text) M SPACE st eq_refl ltac:(lia) W) as [ext E].
  apply while_reachable in W. destruct W as [R _].
  pose proof (reach_bounds _ _ _ R) as (B1 & B2 & _).
  pose proof (cleanText_length text) as Hlen.
  rewrite E in L. cbn [length] in L.
  assert (Hn : 1 <= App.cellCount final <= length text + 1).
  { rewrite E in B2. cbn [length] in B2. unfold M in L. lia. }
  split; [exact Hn|].
  change (App.ceilDiv (App.cellCount final) GRID_COLS)
    with ((App.cellCount final + 9) / 10).
  change (App.ceilDiv (length text + 1) GRID_COLS) with ((length text + 1 + 9) / 10).
  pose proof (Nat.Div0.div_le_mono (App.cellCount final + 9) (length text + 1 + 9) 10).
  lia.
Qed.

(** * Rendering *)

Lemma firstn_add (A : Type) (a b : nat) (l : list A) :
  firstn (a + b) l = firstn a l ++ firstn b (skipn a l).
Proof.
  revert l; induction a as [|a IH]; intros l; [reflexivity|].
  destruct l as [|x l]; cbn [Nat.add firstn skipn app].
  - now rewrite firstn_nil.
  - now rewrite IH.
Qed.

Section Grouping.
Import Render.
Variable cells : list Cell.

Local Abbreviation reachG := (reachable (cond cells) (body cells) init).

(** After [k] iterations the loop has cut the first [k] rows. *)
Lemma group_invariant (st : State) :
  reachG st ->
  exists k,
    i st = k * 10
    /\ length (gridRows st) = k
    /\ concat (gridRows st) = firstn (i st) cells
    /\ (forall r row, nth_error (gridRows st) r = Some row ->
         row = firstn 10 (skipn (r * 10) cells) /\ r * 10 < length cells).
Proof.
  induction 1 as [|st R (k & Hi & Hk & Hc & Hr) C].
  - exists 0. do 3 (split; [reflexivity|]). intros [|r] row H; discriminate.
  - unfold cond in C. apply Nat.ltb_lt in C.
    exists (S k). unfold body, GRID_COLS. cbn [i gridRows].
    split; [lia|]. split; [rewrite length_app; cbn [length]; lia|].
    unfold slice. replace (i st + 10 - i st) with 10 by lia.
    split.
    + rewrite concat_app, Hc, firstn_add. cbn [concat]. now rewrite app_nil_r.
    + intros r row H. apply nth_error_snoc in H.
      destruct H as [[_ H]|[-> ->]]; [now apply Hr|].
      rewrite Hk, <- Hi. split; [reflexivity | exact C].
Qed.

Lemma group_total : exists st,
  while (cond cells) (body cells) (S (length cells)) init = Some st.
Proof.
  apply while_terminates with (m := fun st => length cells - i st); [|cbn; lia].
  intros st C. unfold cond in C. apply Nat.ltb_lt in C.
  unfold body, GRID_COLS. cbn [i]. lia.
Qed.
End Grouping.

(** X11. Cutting the cells into rows loses nothing: for any sequence of
    cells the rows, put end to end, are the cells again; every row holds
    between one and ten cells, and the cell in column [c] of row [r] is the
    cell at index [r * 10 + c]. *)
Theorem group_concat (cells : list Cell) :
  exists rows,
    Render.group cells = Some rows
    /\ concat rows = cells
    /\ length rows = App.ceilDiv (length cells) GRID_COLS
    /\ Forall (fun row => 1 <= length row <= GRID_COLS) rows
    /\ forall r row c, nth_error rows r = Some row -> c < GRID_COLS ->
         nth_error row c = nth_error cells (r * GRID_COLS + c).
Proof.
  destruct (group_total cells) as [st W].
  unfold Render.group. rewrite W. cbn [option_map].
  apply while_reachable in W. destruct W as [R C].
  destruct (group_invariant cells st R) as (k & Hi & Hk & Hc & Hr).
  unfold Render.cond in C. apply Nat.ltb_ge in C.
  exists (Render.gridRows st). split; [reflexivity|].
  split; [rewrite Hc; apply firstn_all2; exact C|].
  assert (Hlast : k = 0 \/ (k - 1) * 10 < length cells).
  { destruct k as [|k]; [now left|]. right.
    destruct (nth_error (Render.gridRows st) k) as [row|] eqn:E.
    - destruct (Hr _ _ E) as [_ H]. replace (S k - 1) with k by lia. exact H.
    - apply nth_error_None in E. lia. }
  unfold GRID_COLS. split.
  { change (App.ceilDiv (length cells) 10) with ((length cells + 9) / 10).
    rewrite Hk. pose proof (Nat.div_mod_eq (length cells + 9) 10).
    pose proof (Nat.mod_upper_bound (length cells + 9) 10 ltac:(lia)). lia. }
  split.
  - apply Forall_forall. intros row Hin. apply In_nth_error in Hin.
    destruct Hin as [r Hin]. destruct (Hr _ _ Hin) as [-> Hlt].
    rewrite length_firstn, length_skipn. lia.
  - intros r row c Hrow Hcol. destruct (Hr _ _ Hrow) as [-> _].
    rewrite nth_error_firstn. destruct (Nat.ltb_spec c 10); [|lia].
    now rewrite nth_error_skipn.
Qed.

(** X12. The grid is rendered as exactly [rows] rows of exactly ten cells
    each (for a non-negative number of rows). *)
Theorem grid_is_rectangular (text : jsstring) (rows : Z) :
  exists g gridRows,
    GridNotebook.buildGrid text rows = Some g
    /\ Render.group g = Some gridRows
    /\ length gridRows = Z.to_nat rows
    /\ Forall (fun row => length row = GRID_COLS) gridRows.
Proof.
  destruct (buildGrid_shape text rows) as (st0 & _ & _ & Hlen & G).
  set (g := _ ++ _) in G.
  assert (Lg : length g = Z.to_nat rows * 10).
  { unfold g. rewrite length_app, repeat_length. lia. }
  destruct (group_total g) as [st W].
  exists g, (Render.gridRows st). split; [exact G|].
  unfold Render.group. rewrite W. cbn [option_map]. split; [reflexivity|].
  apply while_reachable in W. destruct W as [R C].
  destruct (group_invariant g st R) as (k & Hi & Hk & _ & Hr).
  unfold Render.cond in C. apply Nat.ltb_ge in C.
  assert (Hrows : forall r row, nth_error (Render.gridRows st) r = Some row ->
                    r < Z.to_nat rows /\ length row = 10).
  { intros r row H. destruct (Hr _ _ H) as [-> Hlt].
    rewrite length_firstn, length_skipn. lia. }
  split.
  - rewrite Hk. destruct (Nat.lt_trichotomy k (Z.to_nat rows)) as [L|[E|L]];
      [lia | exact E |].
    destruct (nth_error (Render.gridRows st) (k - 1)) as [row|] eqn:E.
    + destruct (Hrows _ _ E). lia.
    + apply nth_error_None in E. lia.
  - apply Forall_forall. intros row Hin. apply In_nth_error in Hin.
    destruct Hin as [r Hin]. exact (proj2 (Hrows _ _ Hin)).
Qed.

Lemma forbidden_cases (d : N) :
  forbidden d ->
  member PUNCTUATION d = true /\ member Render.CLOSE_QUOTES d = false
  \/ member PUNCTUATION d = false /\ member Render.CLOSE_QUOTES d = true.
Proof.
  unfold forbidden, FORBIDDEN_START_CHARS, PUNCTUATION. cbn [app In].
  intros [H|[H|[H|[H|[H|[H|[H|[]]]]]]]]; subst d; (now left) || (now right).
Qed.

(** X13. In a grid every companion is rendered, and it goes to the top
    right corner exactly when the primary is one of . , ! ? and the
    companion is not: that is, when the companion is a closing quotation
    mark U+201D or U+2019 or the closing parenthesis.  Otherwise it goes
    to the bottom right corner. *)
Theorem companion_corner (text : jsstring) (rows : Z) :
  exists g,
    GridNotebook.buildGrid text rows = Some g
    /\ forall k cell sub, nth_error g k = Some cell -> subChar cell = Some sub ->
         exists p d, char cell = [p] /\ sub = [d]
           /\ Render.companionCorner cell
              = Some (if member PUNCTUATION p && negb (member PUNCTUATION d)
                      then Render.TopRight else Render.BottomRight).
Proof.
  destruct (buildGrid_shape text rows) as (st & W & _ & _ & G).
  apply while_reachable in W. destruct W as [R _].
  eexists. split; [exact G|]. intros k cell sub H Hsub.
  destruct (Nat.lt_ge_cases k (length (GridNotebook.displayCells st))) as [L|L].
  - rewrite nth_error_app1 in H by exact L.
    destruct (reach_cells _ _ _ R k cell H) as [_ Hc].
    destruct (Hc sub Hsub) as (_ & p & d & Hp & -> & Hf & _).
    exists p, d. split; [exact Hp|]. split; [reflexivity|].
    unfold Render.companionCorner, Render.isPunctuationWithQuote,
      Render.isSubCharQuote, Render.subCharOrEmpty.
    rewrite Hsub, Hp. cbn [Render.truthy Render.includesStr].
    destruct (forbidden_cases d Hf) as [[-> ->]|[-> ->]];
      now rewrite ?andb_false_r, ?andb_true_r.
  - rewrite nth_error_app2 in H by exact L.
    apply nth_error_In, repeat_spec in H. subst cell. discriminate.
Qed.

(** * The editor *)

Lemma requiredRows_total (text : jsstring) :
  exists n,
    App.countCells text = Some n
    /\ App.calculateRequiredRows text
       = Some (Z.max 5 (Z.of_nat (App.ceilDiv n GRID_COLS))).
Proof.
  destruct (count_walk_total (cleanText text)) as [final WA].
  exists (App.cellCount final).
  unfold App.calculateRequiredRows, App.countCells. rewrite WA. split; reflexivity.
Qed.

(** Rows at or above the required number show every cell. *)
Lemma showsAll_from (text : jsstring) (r rows : Z) :
  App.calculateRequiredRows text = Some r -> (r <= rows)%Z -> showsAll text rows.
Proof.
  intros Hr Hle. destruct (requiredRows_total text) as (n & Hn & Hr').
  assert (Er : r = Z.max 5 (Z.of_nat (App.ceilDiv n GRID_COLS))) by congruence.
  pose proof Hn as Hn0. unfold App.countCells in Hn.
  destruct (App.walk (cleanText text)) as [final|] eqn:WA; [|discriminate].
  cbn [option_map] in Hn. injection Hn as Hn.
  destruct (buildGrid_shape text rows) as (st & W & E & _ & _).
  exists n, (GridNotebook.displayCells st). split; [exact Hn0|]. split; [exact E|].
  rewrite (emitted_count _ _ _ _ WA W), maxCharsOf_10, Hn.
  pose proof (ceilDiv_covers n). lia.
Qed.

Lemma handleContentChange_rows (text : jsstring) (m : Editor.Model) :
  exists r,
    App.calculateRequiredRows text = Some r
    /\ (5 <= r)%Z
    /\ Editor.handleContentChange text m = Some (Editor.mkModel text r).
Proof.
  destruct (requiredRows_total text) as (n & _ & Hr).
  eexists. split; [exact Hr|]. split; [lia|].
  unfold Editor.handleContentChange. rewrite Hr. do 2 f_equal.
  destruct (Z.eqb_spec (Z.max 5 (Z.of_nat (App.ceilDiv n GRID_COLS))) (Editor.rows m)) as [E|E];
    cbn [negb]; congruence.
Qed.

Lemma load_rows (saved : Editor.Saved) (m : Editor.Model) :
  (5 <= Editor.rows m)%Z ->
  exists m', Editor.load saved m = Some m' /\ (5 <= Editor.rows m')%Z.
Proof.
  intros Hm. destruct saved as [| |[s|]]; cbn [Editor.load];
    try (eexists; split; [reflexivity | cbn; lia]).
  destruct (Render.truthy s); [|eexists; split; [reflexivity | cbn; lia]].
  destruct (requiredRows_total s) as (n & _ & Hr). rewrite Hr. cbn [option_map].
  eexists. split; [reflexivity | cbn; lia].
Qed.

(** X14. Whatever the user does -- typing, adding or removing lines,
    changing the date -- the handlers return a state and the row count
    never falls below 5, so the two-page view never shows fewer than
    8 rows. *)
Theorem rows_never_below_five (es : list Editor.Event) :
  exists m,
    Editor.run es Editor.initial = Some m
    /\ (5 <= Editor.editorRows m)%Z
    /\ (8 <= Editor.viewRows m)%Z.
Proof.
  assert (H : forall m0, (5 <= Editor.rows m0)%Z ->
            exists m, Editor.run es m0 = Some m /\ (5 <= Editor.rows m)%Z).
  { induction es as [|e es IH]; intros m0 H0; [exists m0; split; [reflexivity | exact H0]|].
    cbn [Editor.run].
    assert (S : exists m1, Editor.step e m0 = Some m1 /\ (5 <= Editor.rows m1)%Z).
    { destruct e as [text| | |saved]; cbn [Editor.step].
      - destruct (handleContentChange_rows text m0) as (r & _ & Hr & ->).
        eexists. split; [reflexivity | exact Hr].
      - eexists. split; [reflexivity | cbn; lia].
      - eexists. split; [reflexivity | cbn; lia].
      - now apply load_rows. }
    destruct S as (m1 & -> & H1). now apply IH. }
  destruct (H Editor.initial) as (m & Hm & H5); [cbn; lia|].
  exists m. unfold Editor.editorRows, Editor.viewRows. repeat split; [exact Hm | lia | lia].
Qed.

(** X15. After every change of the text the row count is the required
    one, so both the editor grid and the two-page view hold every cell of
    the new text. *)
Theorem content_change_fits (text : jsstring) (m : Editor.Model) :
  exists m',
    Editor.handleContentChange text m = Some m'
    /\ Editor.content m' = text
    /\ App.calculateRequiredRows text = Some (Editor.rows m')
    /\ showsAll (Editor.content m') (Editor.editorRows m')
    /\ showsAll (Editor.content m') (Editor.viewRows m').
Proof.
  destruct (handleContentChange_rows text m) as (r & Hr & _ & H).
  eexists. split; [exact H|]. cbn [Editor.content Editor.rows].
  split; [reflexivity|]. split; [exact Hr|].
  unfold Editor.editorRows, Editor.viewRows. cbn [Editor.rows].
  split; apply (showsAll_from text r); (exact Hr || lia).
Qed.

(** X16. Loading a saved entry sets the state that typing its content
    would set: the branch for a missing or empty content gives the same 5
    rows that [calculateRequiredRows] gives the empty text. *)
Theorem load_is_content_change (m : Editor.Model) :
  Editor.load Editor.NoData m = Editor.handleContentChange [] m
  /\ forall c,
       Editor.load (Editor.Parsed c) m
       = Editor.handleContentChange (match c with Some s => s | None => [] end) m.
Proof.
  assert (E : Editor.handleContentChange [] m = Some (Editor.mkModel [] 5)).
  { destruct (handleContentChange_rows [] m) as (r & Hr & _ & H).
    rewrite H. vm_compute in Hr. now injection Hr as <-. }
  split; [now rewrite E|]. intros [s|]; [|now rewrite E].
  cbn [Editor.load]. destruct s as [|c s]; [now rewrite E|].
  cbn [Render.truthy].
  destruct (handleContentChange_rows (c :: s) m) as (r & Hr & _ & H).
  now rewrite H, Hr.
Qed.

(** X17. Removing a line is not guarded by the text: when the row count
    is the required one and above 5, the grid after [handleRemoveLine]
    holds fewer cells than the text needs -- the end of the text is cut
    off. *)
Theorem remove_line_cuts_text (m : Editor.Model) (n : nat) :
  App.calculateRequiredRows (Editor.content m) = Some (Editor.rows m) ->
  (5 < Editor.rows m)%Z ->
  App.countCells (Editor.content m) = Some n ->
  exists cells,
    emitted (Editor.content m) (Editor.editorRows (Editor.handleRemoveLine m)) = Some cells
    /\ length cells < n.
Proof.
  intros Hr H5 Hn. destruct (requiredRows_total (Editor.content m)) as (n' & Hn' & Hr').
  assert (n' = n) by congruence. subst n'.
  assert (Er : Editor.rows m = Z.max 5 (Z.of_nat (App.ceilDiv n GRID_COLS)))
    by congruence.
  unfold App.countCells in Hn.
  destruct (App.walk (cleanText (Editor.content m))) as [final|] eqn:WA; [|discriminate].
  cbn [option_map] in Hn. injection Hn as Hn.
  unfold Editor.editorRows, Editor.handleRemoveLine. cbn [Editor.rows Editor.content].
  destruct (buildGrid_shape (Editor.content m) (Z.max 5 (Editor.rows m - 1)))
    as (st & W & E & _ & _).
  exists (GridNotebook.displayCells st). split; [exact E|].
  rewrite (emitted_count _ _ _ _ WA W), maxCharsOf_10, Hn.
  change (App.ceilDiv n GRID_COLS) with ((n + 9) / 10) in Er.
  pose proof (Nat.div_mod_eq (n + 9) 10).
  pose proof (Nat.mod_upper_bound (n + 9) 10 ltac:(lia)). lia.
Qed.

Lemma remove_line_cuts_text_witness :
  App.calculateRequiredRows (str "0123456789012345678901234567890123456789012345678901")
  = Some 6%Z
  /\ (5 < 6)%Z
  /\ App.countCells (str "0123456789012345678901234567890123456789012345678901") = Some 53
  /\ exists cells,
      emitted (str "0123456789012345678901234567890123456789012345678901")
              (Editor.editorRows
                 (Editor.handleRemoveLine
                    (Editor.mkModel
                       (str "0123456789012345678901234567890123456789012345678901") 6)))
      = Some cells
      /\ length cells < 53.
Proof.
  split; [reflexivity|]. split; [lia|]. split; [reflexivity|].
  apply (remove_line_cuts_text
           (Editor.mkModel (str "0123456789012345678901234567890123456789012345678901") 6) 53);
    [reflexivity | cbn; lia | reflexivity].
Defined.

(** * The earlier version *)

Lemma while_ext (St : Type) (cond : St -> bool) (body body' : St -> St) :
  (forall s, body s = body' s) ->
  forall f s, while cond body f s = while cond body' f s.
Proof.
  intros E f; induction f as [|f IH]; intros s; [reflexivity|].
  cbn [while]. destruct (cond s); [|reflexivity]. now rewrite E, IH.
Qed.

Lemma withoutAdded_spec (s : jsstring) :
  withoutAdded s = true <-> forall c, In c s -> member ADDED c = false.
Proof.
  unfold withoutAdded. rewrite forallb_forall. split; intros H c Hc.
  - apply negb_true_iff. now apply H.
  - apply negb_true_iff. now apply H.
Qed.

Lemma added_split (c : N) :
  member ADDED c = false ->
  member OPENING c = false /\ member CLOSING c = false
  /\ member FORBIDDEN_START_CHARS c = member PUNCTUATION c.
Proof.
  unfold member, includes, ADDED, OPENING, CLOSING, FORBIDDEN_START_CHARS.
  rewrite existsb_app. cbn [existsb]. rewrite !orb_false_r, !orb_false_iff.
  intros (-> & -> & -> & -> & ->). cbn [orb]. now rewrite orb_false_r.
Qed.

Lemma dropSpaceAfter_absent (cls : list N) (s : jsstring) :
  (forall c, In c s -> member cls c = false) -> dropSpaceAfter cls false s = s.
Proof.
  induction s as [|c r IH]; intros H; [reflexivity|].
  cbn [dropSpaceAfter andb]. rewrite (H c (or_introl eq_refl)). f_equal.
  apply IH. intros x Hx. apply H. now right.
Qed.

Lemma afterSpaces_In (s : jsstring) (q : N) : afterSpaces s = Some q -> In q s.
Proof.
  induction s as [|c r IH]; [discriminate|]. cbn [afterSpaces].
  destruct (isWs c); [intros H; right; now apply IH | intros [= ->]; now left].
Qed.

Lemma dropSpaceBefore_absent (cls : list N) (s : jsstring) :
  (forall c, In c s -> member cls c = false) -> dropSpaceBefore cls s = s.
Proof.
  induction s as [|c r IH]; intros H; [reflexivity|].
  cbn [dropSpaceBefore].
  assert (E : includes cls (afterSpaces r) = false).
  { destruct (afterSpaces r) as [q|] eqn:A; [|reflexivity].
    apply (H q). right. now apply afterSpaces_In. }
  rewrite E, andb_false_r. f_equal. apply IH. intros x Hx. apply H. now right.
Qed.

Lemma In_replaceNewlines (s : jsstring) (c : N) :
  In c (replaceNewlines s) -> c = SPACE \/ In c s.
Proof.
  unfold replaceNewlines. rewrite in_map_iff. intros (x & E & Hx).
  destruct (N.eqb x NEWLINE); [left | right]; congruence.
Qed.

Lemma legacy_cleanText (text : jsstring) :
  withoutAdded text = true ->
  Legacy.cleanText text = cleanText text
  /\ forall c, In c (cleanText text) -> member ADDED c = false.
Proof.
  intros H. rewrite withoutAdded_spec in H.
  assert (P : forall c, In c (dropSpaceAfter PUNCTUATION false (replaceNewlines text)) ->
              member ADDED c = false).
  { intros c Hc. apply In_dropSpaceAfter, In_replaceNewlines in Hc.
    destruct Hc as [->|Hc]; [reflexivity | now apply H]. }
  assert (E : Legacy.cleanText text = cleanText text).
  { unfold Legacy.cleanText, cleanText, replaced.
    rewrite (dropSpaceAfter_absent OPENING), (dropSpaceBefore_absent CLOSING);
      [reflexivity | |]; intros c Hc; now destruct (added_split c (P c Hc)) as (? & ? & ?). }
  split; [exact E|]. rewrite <- E. intros c [<-|Hc]; [reflexivity | now apply P].
Qed.

Lemma legacy_next (clean : jsstring) (j : nat) :
  (forall c, In c clean -> member ADDED c = false) ->
  includes FORBIDDEN_START_CHARS (charAt clean j)
  = includes [46; 44; 33; 63]%N (charAt clean j).
Proof.
  intros H. destruct (charAt clean j) as [d|] eqn:E; [|reflexivity].
  apply nth_error_In in E.
  destruct (added_split d (H d E)) as (_ & _ & M). exact M.
Qed.

(** X18. The later version changed the layout only for the code units it
    added rules for: on a text without the quotation marks U+201C, U+2018,
    U+201D, U+2019 and without a closing parenthesis, the earlier and the
    later version normalize alike, count the same rows and build the same
    grid. *)
Theorem legacy_agrees (text : jsstring) :
  withoutAdded text = true ->
  Legacy.cleanText text = cleanText text
  /\ Legacy.calculateRequiredRows text = App.calculateRequiredRows text
  /\ forall rows, Legacy.buildGrid text rows = GridNotebook.buildGrid text rows.
Proof.
  intros H. destruct (legacy_cleanText text H) as [E P].
  split; [exact E|]. split.
  - unfold Legacy.calculateRequiredRows, App.calculateRequiredRows, App.countCells,
      App.walk. rewrite E.
    rewrite (while_ext _ _ (Legacy.countBody (cleanText text)) (App.body (cleanText text))).
    + now destruct (while _ _ _ _).
    + intros s. unfold Legacy.countBody, App.body. now rewrite (legacy_next _ _ P).
  - intros rows. unfold Legacy.buildGrid, GridNotebook.buildGrid, GridNotebook.walk.
    rewrite E.
    rewrite (while_ext _ _ (Legacy.gridBody (cleanText text))
               (GridNotebook.body (cleanText text))); [reflexivity|].
    intros s. unfold Legacy.gridBody, GridNotebook.body. now rewrite (legacy_next _ _ P).
Qed.

Lemma legacy_agrees_witness :
  withoutAdded (str "Hello, world! (ok") = true
  /\ Legacy.cleanText (str "Hello, world! (ok") = cleanText (str "Hello, world! (ok")
  /\ Legacy.calculateRequiredRows (str "Hello, world! (ok")
     = App.calculateRequiredRows (str "Hello, world! (ok")
  /\ forall rows,
       Legacy.buildGrid (str "Hello, world! (ok") rows
       = GridNotebook.buildGrid (str "Hello, world! (ok") rows.
Proof.
  split; [reflexivity|].
  apply (legacy_agrees (str "Hello, world! (ok")). reflexivity.
Defined.

(** * The cells and the text *)

Lemma cleanText_no_newline (text : jsstring) : ~ In NEWLINE (cleanText text).
Proof.
  unfold cleanText, replaced. intros [E|H]; [discriminate E|].
  apply In_dropSpaceBefore, In_dropSpaceAfter, In_dropSpaceAfter in H.
  exact (replaceNewlines_clean _ H).
Qed.

Lemma reach_glyphs_from_text (clean : jsstring) (maxChars : Z) (st : GridNotebook.State) :
  reachable (GridNotebook.cond clean maxChars) (GridNotebook.body clean)
            GridNotebook.init st ->
  forall x, In x (glyphs (GridNotebook.displayCells st)) -> In x clean.
Proof.
  induction 1 as [|st R IH C]; [intros x []|].
  apply cond_true in C. destruct C as [Ht Hm].
  destruct (body_cases clean st Ht) as (c & Hc & Hcase). cbv zeta in Hcase.
  apply nth_error_In in Hc.
  destruct Hcase as [(_ & _ & _ & ->)|[(_ & _ & d & Hd & _ & ->)|(_ & _ & ->)]];
    cbn [GridNotebook.displayCells]; [exact IH| |];
    intros x Hx; rewrite glyphs_app in Hx; apply in_app_or in Hx;
    destruct Hx as [Hx|Hx]; try (now apply IH).
  - apply nth_error_In in Hd.
    destruct Hx as [<-|[<-|[]]]; assumption.
  - destruct Hx as [<-|[]]. assumption.
Qed.

(** X19. The cap is the only difference between the two walks: for any
    number of rows the grid holds as many emitted cells as the counting
    walk counts, or [rows * 10] if that is less. *)
Theorem emitted_is_count_or_cap (text : jsstring) (rows : Z) :
  exists n cells,
    App.countCells text = Some n
    /\ emitted text rows = Some cells
    /\ length cells = Nat.min n (Z.to_nat (rows * Z.of_nat GRID_COLS)).
Proof.
  destruct (count_walk_total (cleanText text)) as [final WA].
  destruct (buildGrid_shape text rows) as (st & W & E & _ & _).
  exists (App.cellCount final), (GridNotebook.displayCells st).
  unfold App.countCells. rewrite WA. split; [reflexivity|]. split; [exact E|].
  now rewrite (emitted_count _ _ _ _ WA W), maxCharsOf_10.
Qed.

(** X20. The grid shows nothing that is not in the normalized text: every
    code unit in a cell, primary or companion, occurs in the normalized
    text, and none is a line feed. *)
Theorem grid_shows_only_text (text : jsstring) (rows : Z) :
  exists g,
    GridNotebook.buildGrid text rows = Some g
    /\ forall x, In x (glyphs g) -> In x (cleanText text) /\ x <> NEWLINE.
Proof.
  destruct (buildGrid_shape text rows) as (st & W & _ & _ & G).
  apply while_reachable in W. destruct W as [R _].
  eexists. split; [exact G|]. intros x Hx.
  rewrite glyphs_app, glyphs_padding, app_nil_r in Hx.
  pose proof (reach_glyphs_from_text _ _ _ R x Hx) as Hin.
  split; [exact Hin|]. intros ->. exact (cleanText_no_newline text Hin).
Qed.
